(** * school-ai backend (index.js): OTP registry, bearer-token check, registration

    A shallow embedding of the request handlers of [src/index.js] and of the
    parts of the JavaScript semantics they rely on: IEEE-754 binary64
    arithmetic for the code generator, property access on a plain object for
    [otpStore], truthiness and loose equality for the guards. *)

From Stdlib Require Import ZArith NArith QArith Qround Qabs Qpower Lia Lqa.
From Stdlib Require Import Ascii String List SpecFloat.
From stdpp Require Import gmap strings.

Local Open Scope Z_scope.

(** ** JavaScript Numbers

    A Number is an IEEE-754 binary64 value.  A finite one is represented by
    its exact rational value; the sign of zero is not represented (nothing in
    the program observes it).  Arithmetic is exact arithmetic followed by
    rounding to the nearest binary64 value, ties to even. *)

Module Number.

Local Open Scope Q_scope.

Inductive number : Type :=
| NaN
| Inf (negative : bool)
| Fin (q : Q).

(** [ilog2 x] is the binary exponent of a positive rational:
    [2^(ilog2 x) <= x < 2^(ilog2 x + 1)]. *)
Definition ilog2 (x : Q) : Z :=
  let k := (Z.log2 (Qnum x) - Z.log2 (Zpos (Qden x)))%Z in
  if Qle_bool (2 ^ k)%Q x then k else (k - 1)%Z.

(** The exponent of the binade of [x], subnormals sharing the lowest one. *)
Definition exponent (x : Q) : Z := Z.max (ilog2 x) (-1022).

(** The spacing of binary64 values around [x]: 53 significant bits. *)
Definition ulp (x : Q) : Q := 2 ^ (exponent x - 52).

(** Rounding to the nearest integer, ties to the even one. *)
Definition rne (t : Q) : Z :=
  let f := Qfloor t in
  match ((t - inject_Z f) * 2 ?= 1)%Q with
  | Lt => f
  | Gt => (f + 1)%Z
  | Eq => if Z.even f then f else (f + 1)%Z
  end.

(** Rounding with unbounded exponent range. *)
Definition rnd64 (x : Q) : Q :=
  let a := Qabs x in
  let v := inject_Z (rne (a / ulp a)) * ulp a in
  if Qle_bool 0 x then v else - v.

(** Rounding to binary64: overflow gives an infinity. *)
Definition round64 (x : Q) : number :=
  let v := rnd64 x in
  if Qle_bool (2 ^ 1024) (Qabs v) then Inf (negb (Qle_bool 0 x)) else Fin v.

Definition is_zero (a : Q) : bool := Qeq_bool a 0.

(** [x * y] *)
Definition mul (x y : number) : number :=
  match x, y with
  | NaN, _ | _, NaN => NaN
  | Inf s, Inf s' => Inf (xorb s s')
  | Inf s, Fin a | Fin a, Inf s =>
      if is_zero a then NaN else Inf (xorb s (negb (Qle_bool 0 a)))
  | Fin a, Fin b => round64 (a * b)
  end.

(** [x + y] *)
Definition add (x y : number) : number :=
  match x, y with
  | NaN, _ | _, NaN => NaN
  | Inf s, Inf s' => if Bool.eqb s s' then Inf s else NaN
  | Inf s, Fin _ | Fin _, Inf s => Inf s
  | Fin a, Fin b => round64 (a + b)
  end.

(** [Math.floor(x)]: exact, the floor of a binary64 value is one. *)
Definition floor (x : number) : number :=
  match x with
  | Fin a => Fin (inject_Z (Qfloor a))
  | _ => x
  end.

(** Number::equal, the comparison [==] and [===] make on two Numbers. *)
Definition equal (x y : number) : bool :=
  match x, y with
  | Fin a, Fin b => Qeq_bool a b
  | Inf s, Inf s' => Bool.eqb s s'
  | _, _ => false
  end.

(** ToBoolean on a Number: [NaN] and zero are falsy. *)
Definition truthy (x : number) : bool :=
  match x with
  | NaN => false
  | Inf _ => true
  | Fin a => negb (is_zero a)
  end.

Definition of_Z (z : Z) : number := Fin (inject_Z z).

(** [x] is a binary64 value: rounding leaves it as it is. *)
Definition representable (x : Q) : Prop := rnd64 x == x.

(** The Number a binary64 datum of the Standard Library's specification of
    IEEE-754 denotes, for comparison with it. *)
Definition of_spec_float (f : spec_float) : number :=
  match f with
  | S754_zero _ => Fin 0
  | S754_infinity s => Inf s
  | S754_nan => NaN
  | S754_finite s m e =>
      Fin ((if s then - inject_Z (Zpos m) else inject_Z (Zpos m)) * 2 ^ e)
  end.

End Number.

(** ** Strings

    A JavaScript string is represented by its UTF-8 bytes, as it travels in
    a request body; equality of well-formed strings is equality of bytes. *)

Module Str.

Local Open Scope N_scope.

Fixpoint bytes (s : string) : list N :=
  match s with
  | EmptyString => []
  | String c t => N_of_ascii c :: bytes t
  end.

(** WhiteSpace and LineTerminator code points (ECMA-262, StrWhiteSpaceChar),
    UTF-8 encoded: TAB, LF, VT, FF, CR, SP, U+00A0, U+1680, U+2000..U+200A,
    U+2028, U+2029, U+202F, U+205F, U+3000, U+FEFF. *)
Definition white_space : list (list N) :=
  [ [9]; [10]; [11]; [12]; [13]; [32]; [194; 160]; [225; 154; 128];
    [226; 128; 128]; [226; 128; 129]; [226; 128; 130]; [226; 128; 131];
    [226; 128; 132]; [226; 128; 133]; [226; 128; 134]; [226; 128; 135];
    [226; 128; 136]; [226; 128; 137]; [226; 128; 138];
    [226; 128; 168]; [226; 128; 169]; [226; 128; 175]; [226; 129; 159];
    [227; 128; 128]; [239; 187; 191] ].

Fixpoint strip_prefix (p l : list N) : option (list N) :=
  match p, l with
  | [], _ => Some l
  | a :: p', b :: l' => if a =? b then strip_prefix p' l' else None
  | _ :: _, [] => None
  end.

Fixpoint strip_any (ps : list (list N)) (l : list N) : option (list N) :=
  match ps with
  | [] => None
  | p :: ps' =>
      match strip_prefix p l with
      | Some r => Some r
      | None => strip_any ps' l
      end
  end.

Fixpoint strip_all (fuel : nat) (ps : list (list N)) (l : list N) : list N :=
  match fuel with
  | O => l
  | S n =>
      match strip_any ps l with
      | Some r => strip_all n ps r
      | None => l
      end
  end.

Definition trim_start (l : list N) : list N :=
  strip_all (length l) white_space l.

Definition trim_end (l : list N) : list N :=
  rev (strip_all (length l) (map (@rev N) white_space) (rev l)).

Definition trim (l : list N) : list N := trim_end (trim_start l).

Definition digit_in (radix : N) (b : N) : option Z :=
  let d :=
    if (48 <=? b) && (b <=? 57) then Some (b - 48)
    else if (97 <=? b) && (b <=? 102) then Some (b - 87)
    else if (65 <=? b) && (b <=? 70) then Some (b - 55)
    else None in
  match d with
  | Some v => if v <? radix then Some (Z.of_N v) else None
  | None => None
  end.

(** The longest prefix of decimal digits, and what follows it. *)
Fixpoint digits (l : list N) : list Z * list N :=
  match l with
  | [] => ([], [])
  | b :: t =>
      match digit_in 10 b with
      | Some d => let (ds, r) := digits t in (d :: ds, r)
      | None => ([], l)
      end
  end.

Definition value_in (radix : Z) (ds : list Z) : Z :=
  fold_left (fun acc d => (radix * acc + d)%Z) ds 0%Z.

(** All of [l] as digits of the radix. *)
Fixpoint all_digits (radix : N) (l : list N) : option (list Z) :=
  match l with
  | [] => Some []
  | b :: t =>
      match digit_in radix b, all_digits radix t with
      | Some d, Some ds => Some (d :: ds)
      | _, _ => None
      end
  end.

(** NonDecimalIntegerLiteral: [0x], [0o], [0b] and at least one digit. *)
Definition non_decimal (l : list N) : option Q :=
  match l with
  | 48 :: p :: ((_ :: _) as t) =>
      let radix :=
        if (p =? 120) || (p =? 88) then Some 16
        else if (p =? 111) || (p =? 79) then Some 8
        else if (p =? 98) || (p =? 66) then Some 2
        else None in
      match radix with
      | Some r =>
          match all_digits r t with
          | Some ds => Some (inject_Z (value_in (Z.of_N r) ds))
          | None => None
          end
      | None => None
      end
  | _ => None
  end.

Definition sign (l : list N) : bool * list N :=
  match l with
  | 43 :: t => (false, t)
  | 45 :: t => (true, t)
  | _ => (false, l)
  end.

(** ExponentPart, which must end the literal; none is exponent zero. *)
Definition exponent_part (l : list N) : option Z :=
  match l with
  | [] => Some 0%Z
  | e :: t =>
      if (e =? 101) || (e =? 69) then
        let (neg, t') := sign t in
        match digits t' with
        | ((_ :: _) as ds, []) =>
            let v := value_in 10 ds in Some (if neg then (- v)%Z else v)
        | _ => None
        end
      else None
  end.

(** The mathematical value of a StrUnsignedDecimalLiteral other than
    [Infinity]: digits, an optional fraction, an optional exponent. *)
Definition unsigned_decimal (l : list N) : option Q :=
  let (ip, r1) := digits l in
  let '(fp, r2) :=
    match r1 with
    | 46 :: t => digits t
    | _ => ([], r1)
    end in
  match ip ++ fp, exponent_part r2 with
  | (_ :: _) as ds, Some e =>
      Some (inject_Z (value_in 10 ds) * 10 ^ (e - Z.of_nat (length fp)))%Q
  | _, _ => None
  end.

Definition Infinity : list N := [73; 110; 102; 105; 110; 105; 116; 121].

Fixpoint list_eqb (a b : list N) : bool :=
  match a, b with
  | [], [] => true
  | x :: a', y :: b' => (x =? y) && list_eqb a' b'
  | _, _ => false
  end.

(** StringToNumber (ECMA-262 7.1.4.1.1). *)
Definition to_number (s : string) : Number.number :=
  let l := trim (bytes s) in
  match l with
  | [] => Number.Fin 0
  | _ =>
      match non_decimal l with
      | Some v => Number.round64 v
      | None =>
          let (neg, u) := sign l in
          if list_eqb u Infinity then Number.Inf neg
          else
            match unsigned_decimal u with
            | Some v => Number.round64 (if neg then (- v)%Q else v)
            | None => Number.NaN
            end
      end
  end.

Fixpoint of_bytes (l : list N) : string :=
  match l with
  | [] => EmptyString
  | b :: t => String (ascii_of_N b) (of_bytes t)
  end.

Definition digit_byte (d : Z) : N := 48 + Z.to_N d.

(** Number::toString on an integer of six decimal digits: the digits. *)
Definition decimal6 (c : Z) : string :=
  of_bytes
    (map digit_byte
       [ c / 100000 mod 10; c / 10000 mod 10; c / 1000 mod 10;
         c / 100 mod 10; c / 10 mod 10; c mod 10 ]%Z).

(** [s.startsWith(p)] *)
Definition startsWith (s p : string) : bool := String.prefix p s.

(** [s.split(sep)] for a separator of one character. *)
Fixpoint split (sep : ascii) (s : string) : list string :=
  match s with
  | EmptyString => [EmptyString]
  | String c t =>
      if Ascii.eqb c sep then EmptyString :: split sep t
      else
        match split sep t with
        | h :: r => String c h :: r
        | [] => [String c EmptyString]
        end
  end.

End Str.

(** ** Numbers as text

    Number::toString in radix 10, which makes a Number a property key and
    an element of a joined array. *)

Module NumberText.

(** [ilog10 x] is the decimal exponent of a positive rational:
    [10^(ilog10 x) <= x < 10^(ilog10 x + 1)]. *)
Definition ilog10 (x : Q) : Z :=
  let e := Number.ilog2 x * 30103 / 100000 - 1 in
  if Qle_bool (10 ^ (e + 3))%Q x then e + 3
  else if Qle_bool (10 ^ (e + 2))%Q x then e + 2
  else if Qle_bool (10 ^ (e + 1))%Q x then e + 1
  else e.

(** The [k] decimal digits of [s], most significant first. *)
Fixpoint decimal (k : nat) (s : Z) : list Z :=
  match k with
  | O => []
  | S k' => decimal k' (s / 10) ++ [s mod 10]
  end.

Fixpoint strip_zeros (ds : list Z) : list Z :=
  match ds with
  | 0 :: ((_ :: _) as t) => strip_zeros t
  | _ => ds
  end.

(** The decimal digits of a non-negative integer, at least one. *)
Definition natural (z : Z) : list Z :=
  strip_zeros (decimal (Z.to_nat (Z.log2 z) + 1) z).

Definition show (ds : list Z) : string := Str.of_bytes (map Str.digit_byte ds).

(** Does [s * 10^(n-k)], with [s] of exactly [k] digits, round to [x]? *)
Definition denotes (x : Q) (n k s : Z) : bool :=
  (10 ^ (k - 1) <=? s) && (s <? 10 ^ k)
  && Number.equal (Number.round64 (inject_Z s * 10 ^ (n - k))%Q) (Number.Fin x).

(** The candidates with [k] digits: the two integers around [x / 10^(n-k)],
    for the two exponents at which [k] digits can denote [x]. *)
Definition candidates (x : Q) (k : Z) : list (Z * Z) :=
  flat_map
    (fun n =>
       let f := Qfloor (x / 10 ^ (n - k))%Q in
       map (fun s => (n, s)) (filter (denotes x n k) [f; f + 1]))
    [ilog10 x + 1; ilog10 x + 2].

Definition distance (x : Q) (k : Z) (c : Z * Z) : Q :=
  Qabs (inject_Z (snd c) * 10 ^ (fst c - k) - x)%Q.

(** The candidate closest to [x]. *)
Fixpoint closest (x : Q) (k : Z) (best : Z * Z) (cs : list (Z * Z)) : Z * Z :=
  match cs with
  | [] => best
  | c :: cs' =>
      if Qle_bool (distance x k best) (distance x k c)
      then closest x k best cs' else closest x k c cs'
  end.

(** [n], [k], [s] with [k] as small as possible (step 5 of
    Number::toString); seventeen digits denote any binary64 value. *)
Fixpoint shortest (fuel : nat) (x : Q) (k : Z) : Z * Z * Z :=
  match candidates x k, fuel with
  | c :: cs, _ => let (n, s) := closest x k c cs in (n, k, s)
  | [], S fuel' => shortest fuel' x (k + 1)
  | [], O => (ilog10 x + 1, k, Qfloor (x / 10 ^ (ilog10 x + 1 - k))%Q)
  end.

Definition zeros (n : Z) : list Z := repeat 0 (Z.to_nat n).

(** Steps 6 to 9 of Number::toString, on a positive value. *)
Definition positive (x : Q) : string :=
  let '(n, k, s) := shortest 16 x 1 in
  let ds := decimal (Z.to_nat k) s in
  if ((-5 <=? n) && (n <=? 21))%Z then
    if (k <=? n)%Z then show (ds ++ zeros (n - k))
    else if (0 <? n)%Z then
      (show (firstn (Z.to_nat n) ds) ++ "." ++ show (skipn (Z.to_nat n) ds))%string
    else ("0." ++ show (zeros (- n) ++ ds))%string
  else
    let e := ((if (n <? 0)%Z then "-" else "+") ++ show (natural (Z.abs (n - 1))))%string in
    if (k =? 1)%Z then (show ds ++ "e" ++ e)%string
    else (show (firstn 1 ds) ++ "." ++ show (skipn 1 ds) ++ "e" ++ e)%string.

(** Number::toString (ECMA-262 6.1.6.1.20), radix 10. *)
Definition to_string (x : Number.number) : string :=
  match x with
  | Number.NaN => "NaN"
  | Number.Inf false => "Infinity"
  | Number.Inf true => "-Infinity"
  | Number.Fin q =>
      if Number.is_zero q then "0"
      else if Qle_bool 0 q then positive q
      else ("-" ++ positive (- q))%string
  end.

End NumberText.

(** ** Values

    The values the handlers meet: the primitives a JSON body carries, and
    the two kinds of object a read of [otpStore] can return besides a stored
    code, namely [Object.prototype] itself and its built-in methods. *)

Inductive value : Type :=
| Undefined
| Null
| Boolean (b : bool)
| Num (n : Number.number)
| Text (s : string)
| ObjectPrototype
| Builtin (name : string).

(** ToBoolean *)
Definition truthy (v : value) : bool :=
  match v with
  | Undefined | Null => false
  | Boolean b => b
  | Num n => Number.truthy n
  | Text s => negb (String.eqb s "")
  | ObjectPrototype | Builtin _ => true
  end.

Definition is_object (v : value) : bool :=
  match v with
  | ObjectPrototype | Builtin _ => true
  | _ => false
  end.

(** ToPrimitive: [Object.prototype.toString] for the prototype object;
    [Function.prototype.toString] for a built-in, whose text for a native
    function is the one V8 prints. *)
Definition to_primitive (v : value) : value :=
  match v with
  | ObjectPrototype => Text "[object Object]"
  | Builtin name => Text ("function " ++ name ++ "() { [native code] }")
  | _ => v
  end.

(** Two objects are loosely equal when they are the same object. *)
Definition same_object (x y : value) : bool :=
  match x, y with
  | ObjectPrototype, ObjectPrototype => true
  | Builtin a, Builtin b => String.eqb a b
  | _, _ => false
  end.

(** A Boolean operand of [==] is first converted to a Number. *)
Definition unbool (v : value) : value :=
  match v with
  | Boolean b => Num (Number.of_Z (if b then 1 else 0))
  | _ => v
  end.

(** [==] on operands that are neither objects nor Booleans. *)
Definition primitive_equal (x y : value) : bool :=
  match x, y with
  | Undefined, Undefined | Undefined, Null
  | Null, Undefined | Null, Null => true
  | Num a, Num b => Number.equal a b
  | Text a, Text b => String.eqb a b
  | Num a, Text b => Number.equal a (Str.to_number b)
  | Text a, Num b => Number.equal (Str.to_number a) b
  | _, _ => false
  end.

(** IsLooselyEqual (ECMA-262 7.2.14), the [==] operator. *)
Definition loose_equal (x y : value) : bool :=
  let x := unbool x in
  let y := unbool y in
  match is_object x, is_object y with
  | true, true => same_object x y
  | true, false =>
      match y with
      | Num _ | Text _ => primitive_equal (to_primitive x) y
      | _ => false
      end
  | false, true =>
      match x with
      | Num _ | Text _ => primitive_equal x (to_primitive y)
      | _ => false
      end
  | false, false => primitive_equal x y
  end.

(** ** The object [otpStore]

    [const otpStore = {}] is an ordinary object whose prototype is
    [Object.prototype].  Its own properties are the pending codes; a read
    of a key it does not own falls through to the prototype. *)

Module Obj.

(** Object.prototype: the accessor [__proto__], whose getter returns the
    prototype of the receiver, and eleven methods.  [constructor] is the
    function [Object]. *)
Definition methods : list string :=
  [ "hasOwnProperty"; "isPrototypeOf"; "propertyIsEnumerable";
    "toLocaleString"; "toString"; "valueOf";
    "__defineGetter__"; "__defineSetter__";
    "__lookupGetter__"; "__lookupSetter__" ]%string.

Definition inherited (k : string) : option value :=
  if String.eqb k "__proto__" then Some ObjectPrototype
  else if String.eqb k "constructor" then Some (Builtin "Object")
  else if existsb (String.eqb k) methods then Some (Builtin k)
  else None.

(** [o[k]] *)
Definition get (o : gmap string Number.number) (k : string) : value :=
  match o !! k with
  | Some n => Num n
  | None =>
      match inherited k with
      | Some v => v
      | None => Undefined
      end
  end.

(** [o[k] = n] for a Number [n].  An own property is overwritten; a key
    found on the prototype as a data property is shadowed by a new own
    property; for [__proto__] the inherited setter runs instead, and it
    ignores a value that is neither an object nor [null]. *)
Definition set (o : gmap string Number.number) (k : string)
    (n : Number.number) : gmap string Number.number :=
  match o !! k with
  | Some _ => <[k := n]> o
  | None => if String.eqb k "__proto__" then o else <[k := n]> o
  end.

(** [delete o[k]]: only an own property is removed. *)
Definition delete (o : gmap string Number.number) (k : string)
    : gmap string Number.number :=
  base.delete k o.

End Obj.

(** ** The OTP registry: the two operations on [otpStore] *)

Module Registry.

(** [Math.floor(100000 + Math.random() * 900000)], for the draw [r] that
    [Math.random()] returns. *)
Definition generate (r : Q) : Number.number :=
  Number.floor
    (Number.add (Number.of_Z 100000)
       (Number.mul (Number.Fin r) (Number.of_Z 900000))).

(** What [Math.random()] may return: a binary64 value in [0, 1). *)
Definition random_draw (r : Q) : Prop :=
  Number.representable r /\ (0 <= r)%Q /\ (r < 1)%Q.

(** Lines 67-68: generate a code and store it under [phone]. *)
Definition issue (o : gmap string Number.number) (phone : string) (r : Q)
    : Number.number * gmap string Number.number :=
  let otp := generate r in
  (otp, Obj.set o phone otp).

(** Lines 86-87: the guard of /verify-otp and the removal it guards. *)
Definition verify (o : gmap string Number.number) (phone : string)
    (otp : value) : bool * gmap string Number.number :=
  if truthy (Obj.get o phone) && loose_equal (Obj.get o phone) otp
  then (true, Obj.delete o phone)
  else (false, o).

(** A six-digit code. *)
Definition six_digit (n : Number.number) : Prop :=
  exists c : Z, n = Number.of_Z c /\ 100000 <= c <= 999999.

(** The invariant of the registry. *)
Definition well_formed (o : gmap string Number.number) : Prop :=
  forall k n, o !! k = Some n -> six_digit n.

End Registry.

(** ** Requests, responses and the external collaborators *)

(** A student as sent to the store: [{ name, phone, email, class_name,
    section }]. *)
Record student : Type := {
  name : string;
  phone : string;
  email : option string;
  class_name : string;
  section : string
}.

(** The JSON envelope of a response and its status ([res.json] alone
    answers with 200). *)
Inductive payload : Type :=
| Message (message : string)
| Failure (error : string) (details : option string)
| Success (message : string)
| SuccessToken (message : string) (token : string)
| SuccessData (message : string) (data : option (list student)).

Record response : Type := { status : Z; body : payload }.

Definition json (p : payload) : response := {| status := 200; body := p |}.

Definition fail (code : Z) (error : string) : response :=
  {| status := code; body := Failure error None |}.

(** An error object of the store client. *)
Record db_error : Type := { code : option string; message : string }.

(** What awaiting a store call gives: it throws, or it resolves to
    [{ data, error }], either of which may be [null]. *)
Inductive db_reply (A : Type) : Type :=
| Threw
| Resolved (data : option A) (error : option db_error).
Arguments Threw {A}.
Arguments Resolved {A} data error.

(** The calls a handler makes on the collaborators, in order.  An SMS is
    recorded by the code interpolated into its body
    [`Your verification code is: ${otp}`], its sender and its recipient. *)
Inductive effect : Type :=
| SmsCreate (otp : Number.number) (from to : string)
| DbSelectSingle (filter : string)
| DbInsert (row : student).

(** The collaborators as one request sees them: the draw of
    [Math.random()], the SMS client ([true]: the promise resolves), the
    token library with the process secret at the time of the call, and
    the store client. *)
Record services : Type := {
  Math_random : Q;
  TWILIO_PHONE_NUMBER : string;
  messages_create : Number.number -> string -> string -> bool;
  jwt_sign : string -> string;
  jwt_verify : string -> option string;
  db_select_single : string -> db_reply student;
  db_insert : student -> db_reply (list student)
}.

(** A body field that is absent or a JSON string; other JSON values in
    these fields are outside the model.  [!field] holds of an absent field
    and of the empty string. *)
Definition missing (f : option string) : bool :=
  match f with
  | Some s => String.eqb s ""
  | None => true
  end.

(** Interpolation of a field into a template literal. *)
Definition interpolate (f : option string) : string :=
  match f with
  | Some s => s
  | None => "undefined"
  end.

(** A field read as a string once [!field] has been ruled out. *)
Definition text (f : option string) : string :=
  match f with
  | Some s => s
  | None => ""
  end.

(** The submitted [otp]: absent ([undefined]) or a JSON primitive. *)
Definition field_value (f : option value) : value :=
  match f with
  | Some v => v
  | None => Undefined
  end.

(** ** The route handlers *)

(** GET / *)
Definition health : response := json (Message "✅ Backend is running!").

(** POST /send-otp, body [{ phone }] with [phone] absent or a string, as
    the interface documents it ([send_otp_any] below takes any JSON value).
    The code is stored before the message is handed to the SMS client; a
    rejected send is caught. *)
Definition send_otp (sv : services) (o : gmap string Number.number)
    (phone : option string)
    : response * gmap string Number.number * list effect :=
  if missing phone
  then (fail 400 "Phone number is required", o, [])
  else
    let (otp, o') := Registry.issue o (text phone) (Math_random sv) in
    let from := TWILIO_PHONE_NUMBER sv in
    if messages_create sv otp from (text phone)
    then (json (Success "OTP sent successfully"), o',
          [SmsCreate otp from (text phone)])
    else (fail 500 "Failed to send OTP", o',
          [SmsCreate otp from (text phone)]).

(** POST /verify-otp, body [{ phone, otp }] with [phone] absent or a
    string and [otp] absent or a JSON primitive ([verify_otp_any] below
    takes any JSON values). *)
Definition verify_otp (sv : services) (o : gmap string Number.number)
    (phone : option string) (otp : option value)
    : response * gmap string Number.number :=
  if missing phone || negb (truthy (field_value otp))
  then (fail 400 "Phone and OTP are required", o)
  else
    let (ok, o') := Registry.verify o (text phone) (field_value otp) in
    if ok
    then (json (SuccessToken "OTP verified successfully"
                  (jwt_sign sv (text phone))), o')
    else (fail 401 "Invalid OTP", o').

(** What the middleware does with a request: it answers, or it calls
    [next()] with the decoded token in [req.user]. *)
Inductive authentication : Type :=
| Rejected (r : response)
| Next (user : string).

(** The middleware [authenticateToken] on the Authorization header.  An
    absent second component of the split header reaches [jwt.verify] as
    [undefined], which it refuses. *)
Definition authenticateToken (sv : services) (authorization : option string)
    : authentication :=
  if missing authorization
     || negb (Str.startsWith (text authorization) "Bearer ")
  then Rejected (fail 401 "Unauthorized: Token required")
  else
    match nth_error (Str.split " " (text authorization)) 1 with
    | Some token =>
        match jwt_verify sv token with
        | Some decoded => Next decoded
        | None => Rejected (fail 403 "Invalid or expired token")
        end
    | None => Rejected (fail 403 "Invalid or expired token")
    end.

(** The body of /add-student. *)
Record registration : Type := {
  r_name : option string;
  r_phone : option string;
  r_email : option string;
  r_class_name : option string;
  r_section : option string
}.

(** [checkError && checkError.code !== "PGRST116"] *)
Definition other_than_no_row (checkError : option db_error) : bool :=
  match checkError with
  | Some e => if decide (code e = Some "PGRST116"%string) then false else true
  | None => false
  end.

(** [!name || !phone || !class_name || !section] *)
Definition required_missing (b : registration) : bool :=
  missing (r_name b) || missing (r_phone b)
  || missing (r_class_name b) || missing (r_section b).

(** The filter [`phone.eq.${phone},email.eq.${email}`]. *)
Definition existence_filter (b : registration) : string :=
  ("phone.eq." ++ text (r_phone b)
     ++ ",email.eq." ++ interpolate (r_email b))%string.

(** The row [{ name, phone, email, class_name, section }]. *)
Definition new_row (b : registration) : student :=
  {| name := text (r_name b); phone := text (r_phone b);
     email := r_email b; class_name := text (r_class_name b);
     section := text (r_section b) |}.

(** The handler of POST /add-student, after the middleware.  Any call on
    the store that throws is caught by the handler's [try]. *)
Definition add_student_handler (sv : services) (b : registration)
    : response * list effect :=
  if required_missing b
  then (fail 400 "All required fields must be provided.", [])
  else
    let filter := existence_filter b in
    match db_select_single sv filter with
    | Threw => (fail 500 "Internal server error", [DbSelectSingle filter])
    | Resolved existingStudent checkError =>
        if bool_decide (is_Some existingStudent)
        then (fail 409 "Student with this phone or email already exists",
              [DbSelectSingle filter])
        else if other_than_no_row checkError
        then (fail 500 "Database error", [DbSelectSingle filter])
        else
          let row := new_row b in
          match db_insert sv row with
          | Threw =>
              (fail 500 "Internal server error",
               [DbSelectSingle filter; DbInsert row])
          | Resolved data (Some error) =>
              ({| status := 500;
                  body := Failure "Database error" (Some (message error)) |},
               [DbSelectSingle filter; DbInsert row])
          | Resolved data None =>
              (json (SuccessData "✅ Student added successfully" data),
               [DbSelectSingle filter; DbInsert row])
          end
    end.

(** POST /add-student: the middleware, then the handler. *)
Definition add_student (sv : services) (authorization : option string)
    (b : registration) : response * list effect :=
  match authenticateToken sv authorization with
  | Rejected r => (r, [])
  | Next _ => add_student_handler sv b
  end.

(** ** The server as a state machine over [otpStore]

    On requests whose fields are of the documented types. *)

Inductive request : Type :=
| GET_root
| POST_send_otp (phone : option string)
| POST_verify_otp (phone : option string) (otp : option value)
| POST_add_student (authorization : option string) (b : registration).

(** One request, served with the collaborators as they answer it. *)
Definition serve (o : gmap string Number.number) (call : services * request)
    : response * gmap string Number.number :=
  let (sv, rq) := call in
  match rq with
  | GET_root => (health, o)
  | POST_send_otp phone => let '(r, o', _) := send_otp sv o phone in (r, o')
  | POST_verify_otp phone otp => verify_otp sv o phone otp
  | POST_add_student authorization b => (fst (add_student sv authorization b), o)
  end.

(** The store after a sequence of requests. *)
Definition run (o : gmap string Number.number)
    (calls : list (services * request)) : gmap string Number.number :=
  fold_left (fun o call => snd (serve o call)) calls o.

(** Every draw of [Math.random()] in a sequence of requests is one it can
    return. *)
Definition draws_ok (calls : list (services * request)) : Prop :=
  Forall (fun call => Registry.random_draw (Math_random (fst call))) calls.

(** The text of [rest] before its first space: the second component of
    the split of ["Bearer " ++ rest]. *)
Fixpoint before_space (rest : string) : string :=
  match rest with
  | EmptyString => EmptyString
  | String c t => if Ascii.eqb c " " then EmptyString else String c (before_space t)
  end.

(** ** The OTP routes on any JSON body

    [express.json()] hands the handlers whatever JSON the body holds.  The
    routes /send-otp and /verify-otp are given here for every JSON value of
    [phone] and [otp]; on a string phone and a primitive [otp] they are
    [send_otp] and [verify_otp]. *)

Local Unset Elimination Schemes.

Inductive jvalue : Type :=
| JNull
| JBool (b : bool)
| JNumber (n : Number.number)
| JString (s : string)
| JArray (items : list jvalue)
| JObject (fields : list (string * jvalue)).

Local Set Elimination Schemes.

(** ToBoolean: arrays and objects are truthy. *)
Definition json_truthy (j : jvalue) : bool :=
  match j with
  | JNull => false
  | JBool b => b
  | JNumber n => Number.truthy n
  | JString s => negb (String.eqb s "")
  | JArray _ | JObject _ => true
  end.

(** [!field] on a field that may be absent. *)
Definition json_missing (f : option jvalue) : bool :=
  match f with
  | Some j => negb (json_truthy j)
  | None => true
  end.

(** A parsed object owns the key [toString]: the value under it, not being
    callable, hides [Object.prototype.toString]. *)
Definition owns_toString (fields : list (string * jvalue)) : bool :=
  existsb (fun kv => String.eqb (fst kv) "toString") fields.

(** ToString, which is also ToPropertyKey on these values; [None] when it
    throws a TypeError.  An array joins the strings of its elements with
    commas, [null] giving the empty string; an object answers
    [[object Object]] through [Object.prototype.toString], unless it owns a
    [toString], in which case no method yields a primitive. *)
Fixpoint json_to_string (j : jvalue) : option string :=
  match j with
  | JNull => Some "null"%string
  | JBool b => Some (if b then "true" else "false")%string
  | JNumber n => Some (NumberText.to_string n)
  | JString s => Some s
  | JArray items =>
      (fix join (l : list jvalue) : option string :=
         match l with
         | [] => Some ""%string
         | x :: rest =>
             match (match x with JNull => Some ""%string | _ => json_to_string x end),
                   join rest with
             | Some s, Some t =>
                 Some (match rest with [] => s | _ :: _ => s ++ "," ++ t end)%string
             | _, _ => None
             end
         end) items
  | JObject fields =>
      if owns_toString fields then None else Some "[object Object]"%string
  end.

(** The primitive JSON values as values. *)
Definition json_value (f : option jvalue) : value :=
  match f with
  | None => Undefined
  | Some JNull => Null
  | Some (JBool b) => Boolean b
  | Some (JNumber n) => Num n
  | Some (JString s) => Text s
  | Some (JArray _) | Some (JObject _) => Undefined
  end.

(** The field is absent or holds a primitive. *)
Definition json_primitive (f : option jvalue) : bool :=
  match f with
  | Some (JArray _) | Some (JObject _) => false
  | _ => true
  end.

(** [x == otp] for a value [x] read from [otpStore]; [None] when it throws.
    An array or object operand is converted to a primitive only against a
    Number, a String or a Boolean; against an object of the prototype it is
    another object, and against [undefined] or [null] it is unequal. *)
Definition loose_equal_json (x : value) (otp : option jvalue) : option bool :=
  match otp with
  | Some (JArray _ as j) | Some (JObject _ as j) =>
      match x with
      | Num _ | Text _ | Boolean _ =>
          match json_to_string j with
          | Some s => Some (loose_equal x (Text s))
          | None => None
          end
      | _ => Some false
      end
  | _ => Some (loose_equal x (json_value otp))
  end.

(** The collaborators of the two routes, on any phone. *)
Record otp_services : Type := {
  draw : Q;
  sender : string;
  create : Number.number -> string -> jvalue -> bool;
  sign : jvalue -> string
}.

(** What a handler does with a request: it answers, or a TypeError escapes
    it before it has sent anything; what Express then does with the
    rejected promise is not in this file. *)
Inductive outcome (A : Type) : Type :=
| Answered (a : A)
| Escaped.
Arguments Answered {A} a.
Arguments Escaped {A}.

(** POST /send-otp on any body.  The assignment [otpStore[phone] = otp]
    stands inside the [try]: a phone that cannot be made a property key is
    caught and answered 500, before any message is created. *)
Definition send_otp_any (sv : otp_services) (o : gmap string Number.number)
    (phone : option jvalue)
    : response * gmap string Number.number * list (Number.number * string * jvalue) :=
  match phone with
  | None => (fail 400 "Phone number is required", o, [])
  | Some p =>
      if negb (json_truthy p)
      then (fail 400 "Phone number is required", o, [])
      else
        let otp := Registry.generate (draw sv) in
        match json_to_string p with
        | None => (fail 500 "Failed to send OTP", o, [])
        | Some key =>
            if create sv otp (sender sv) p
            then (json (Success "OTP sent successfully"),
                  Obj.set o key otp, [(otp, sender sv, p)])
            else (fail 500 "Failed to send OTP",
                  Obj.set o key otp, [(otp, sender sv, p)])
        end
  end.

(** POST /verify-otp on any body.  The handler has no [try]: a TypeError
    of line 86 leaves it with the store as it was and nothing sent. *)
Definition verify_otp_any (sv : otp_services) (o : gmap string Number.number)
    (phone otp : option jvalue)
    : outcome (response * gmap string Number.number) :=
  match phone with
  | None => Answered (fail 400 "Phone and OTP are required", o)
  | Some p =>
      if negb (json_truthy p) || json_missing otp
      then Answered (fail 400 "Phone and OTP are required", o)
      else
        match json_to_string p with
        | None => Escaped
        | Some key =>
            if truthy (Obj.get o key)
            then
              match loose_equal_json (Obj.get o key) otp with
              | None => Escaped
              | Some true =>
                  Answered
                    (json (SuccessToken "OTP verified successfully" (sign sv p)),
                     Obj.delete o key)
              | Some false => Answered (fail 401 "Invalid OTP", o)
              end
            else Answered (fail 401 "Invalid OTP", o)
        end
  end.

(** The requests that reach [otpStore]. *)
Inductive otp_request : Type :=
| SendOtp (phone : option jvalue)
| VerifyOtp (phone otp : option jvalue).

(** The store after one request. *)
Definition step (o : gmap string Number.number)
    (call : otp_services * otp_request) : gmap string Number.number :=
  match snd call with
  | SendOtp phone => snd (fst (send_otp_any (fst call) o phone))
  | VerifyOtp phone otp =>
      match verify_otp_any (fst call) o phone otp with
      | Answered (_, o') => o'
      | Escaped => o
      end
  end.

(** The store after a sequence of requests of any JSON bodies. *)
Definition reach (o : gmap string Number.number)
    (calls : list (otp_services * otp_request)) : gmap string Number.number :=
  fold_left step calls o.

(** ** The token issuer *)

Module TokenIssuer.

(** Modelled from the spec: the token library behind [jwt.sign] and
    [jwt.verify] (jsonwebtoken), which is not among the sources.  A token
    encodes [{ phoneKey, issuedAt, expiresAt }] and carries a signature made
    with the process secret; its validity window is a fixed 24 hours from
    issuance.  The signature scheme [mac] is left open. *)
Record token : Type := {
  phoneKey : string;
  issuedAt : Z;
  expiresAt : Z;
  signature : Z
}.

Inductive AuthError : Type := ExpiredOrInvalid.

(** The validity window, in seconds. *)
Definition validity : Z := 24 * 60 * 60.

(** Modelled from the spec: [issue] signs the claims plus an issuance
    timestamp with the secret, with a fixed 24-hour expiry. *)
Definition issue (mac : string -> string * Z * Z -> Z) (secret : string)
    (now : Z) (phone : string) : token :=
  {| phoneKey := phone;
     issuedAt := now;
     expiresAt := now + validity;
     signature := mac secret (phone, now, now + validity) |}.

(** Modelled from the spec: [verify] fails with [ExpiredOrInvalid] when the
    signature does not verify or the expiry has elapsed; otherwise it
    returns the embedded claims. *)
Definition verify (mac : string -> string * Z * Z -> Z) (secret : string)
    (now : Z) (t : token) : string + AuthError :=
  if negb (signature t =? mac secret (phoneKey t, issuedAt t, expiresAt t))
  then inr ExpiredOrInvalid
  else if expiresAt t <? now
  then inr ExpiredOrInvalid
  else inl (phoneKey t).

End TokenIssuer.

(** ** Start-up

    Lines 9-38: the checks on the environment before the server listens.
    [process.env] maps a name to a string or to nothing; a variable that is
    unset or empty is falsy. *)

Module Startup.

Definition unset (env : gmap string string) (name : string) : bool :=
  match env !! name with
  | Some v => String.eqb v ""
  | None => true
  end.

(** [process.env.NAME || fallback] *)
Definition or_else (env : gmap string string) (name fallback : string)
    : string :=
  match env !! name with
  | Some v => if String.eqb v "" then fallback else v
  | None => fallback
  end.

(** What the server runs with once it listens. *)
Record config : Type := {
  PORT : string;
  SUPABASE_URL : string;
  SUPABASE_KEY : string;
  TWILIO_SID : string;
  TWILIO_AUTH_TOKEN : string;
  TWILIO_FROM : string;
  JWT_SECRET : string
}.

(** The process either exits with a code after logging an error, or goes
    on to listen. *)
Inductive boot : Type :=
| Exit (code : Z) (logged : string)
| Listening (c : config).

Definition start (env : gmap string string) : boot :=
  if unset env "SUPABASE_URL" || unset env "SUPABASE_KEY"
  then Exit 1 "❌ ERROR: Supabase credentials are missing!"
  else if unset env "TWILIO_SID" || unset env "TWILIO_AUTH_TOKEN"
          || unset env "TWILIO_PHONE_NUMBER"
  then Exit 1 "❌ ERROR: Twilio credentials are missing!"
  else if unset env "JWT_SECRET"
  then Exit 1 "❌ ERROR: JWT secret is missing!"
  else
    Listening
      {| PORT := or_else env "PORT" "5000";
         SUPABASE_URL := or_else env "SUPABASE_URL" "";
         SUPABASE_KEY := or_else env "SUPABASE_KEY" "";
         TWILIO_SID := or_else env "TWILIO_SID" "";
         TWILIO_AUTH_TOKEN := or_else env "TWILIO_AUTH_TOKEN" "";
         TWILIO_FROM := or_else env "TWILIO_PHONE_NUMBER" "";
         JWT_SECRET := or_else env "JWT_SECRET" "supersecretkey" |}.

(** The six variables the checks read. *)
Definition required : list string :=
  [ "SUPABASE_URL"; "SUPABASE_KEY"; "TWILIO_SID"; "TWILIO_AUTH_TOKEN";
    "TWILIO_PHONE_NUMBER"; "JWT_SECRET" ]%string.

End Startup.

(** ** Sample collaborators and requests, used in the examples *)

Module Sample.

(** The store holds no student and accepts every insert; every message is
    delivered; no token verifies. *)
Definition services_ok : services := {|
  Math_random := 1 # 2;
  TWILIO_PHONE_NUMBER := "+15550000000";
  messages_create := fun _ _ _ => true;
  jwt_sign := fun p => ("signed:" ++ p)%string;
  jwt_verify := fun _ => None;
  db_select_single := fun _ =>
    Resolved None (Some {| code := Some "PGRST116"%string; message := "no rows" |});
  db_insert := fun _ => Resolved None None
|}.

(** As [services_ok], but the SMS client rejects every message. *)
Definition services_sms_down : services := {|
  Math_random := 1 # 2;
  TWILIO_PHONE_NUMBER := "+15550000000";
  messages_create := fun _ _ _ => false;
  jwt_sign := fun p => ("signed:" ++ p)%string;
  jwt_verify := fun _ => None;
  db_select_single := fun _ =>
    Resolved None (Some {| code := Some "PGRST116"%string; message := "no rows" |});
  db_insert := fun _ => Resolved None None
|}.

(** As [services_ok], but the token ["good"] verifies and the insert is
    refused by the store. *)
Definition services_insert_fails : services := {|
  Math_random := 1 # 2;
  TWILIO_PHONE_NUMBER := "+15550000000";
  messages_create := fun _ _ _ => true;
  jwt_sign := fun p => ("signed:" ++ p)%string;
  jwt_verify := fun t => if String.eqb t "good" then Some "+15551234567"%string else None;
  db_select_single := fun _ =>
    Resolved None (Some {| code := Some "PGRST116"%string; message := "no rows" |});
  db_insert := fun _ =>
    Resolved None (Some {| code := Some "23505"%string; message := "duplicate key" |})
|}.

Definition student_a : registration := {|
  r_name := Some "A"%string;
  r_phone := Some "+1"%string;
  r_email := None;
  r_class_name := Some "X"%string;
  r_section := Some "Y"%string
|}.




(** The collaborators of the OTP routes: every message is delivered. *)
Definition otp_services_ok : otp_services := {|
  draw := 1 # 2;
  sender := "+15550000000";
  create := fun _ _ _ => true;
  sign := fun _ => "signed"%string
|}.

End Sample.

(** * Properties *)

(** ** Rounding to binary64 *)

Section Binary64.

Import Number.
Local Open Scope Q_scope.

Lemma pow2_pos (z : Z) : 0 < 2 ^ z.
Proof. apply Qpower_0_lt. reflexivity. Qed.

Lemma pow2_add (a b : Z) : 2 ^ (a + b) == 2 ^ a * 2 ^ b.
Proof. apply Qpower_plus. discriminate. Qed.

Lemma pow2_succ (a : Z) : 2 ^ (a + 1) == 2 * 2 ^ a.
Proof. rewrite pow2_add. change (2 ^ 1) with 2. ring. Qed.

Lemma pow2_le (a b : Z) : (a <= b)%Z -> 2 ^ a <= 2 ^ b.
Proof. intros H. apply Qpower_le_compat_l; [exact H | discriminate]. Qed.

Lemma pow2_lt_inv (a b : Z) : 2 ^ a < 2 ^ b -> (a < b)%Z.
Proof. intros H. apply (Qpower_lt_compat_l_inv 2); [exact H | reflexivity]. Qed.

Lemma pow2_inject (n : Z) : (0 <= n)%Z -> inject_Z (2 ^ n) == 2 ^ n.
Proof. intros H. apply (Zpower_Qpower 2 n H). Qed.


Lemma Q_as_ratio (x : Q) : x * inject_Z (Zpos (Qden x)) == inject_Z (Qnum x).
Proof.
  destruct x as [n d]. unfold Qeq, Qmult, inject_Z. simpl. lia.
Qed.

Lemma log2_bounds_Q (n : Z) :
  (0 < n)%Z -> 2 ^ Z.log2 n <= inject_Z n /\ inject_Z n < 2 ^ (Z.log2 n + 1).
Proof.
  intros Hn. destruct (Z.log2_spec n Hn) as [Hlo Hhi].
  pose proof (Z.log2_nonneg n) as Hnn.
  split.
  - rewrite <- pow2_inject by exact Hnn. rewrite <- Zle_Qle. exact Hlo.
  - rewrite <- pow2_inject by lia. rewrite <- Zlt_Qlt. exact Hhi.
Qed.

Lemma ilog2_spec (x : Q) :
  0 < x -> 2 ^ ilog2 x <= x /\ x < 2 ^ (ilog2 x + 1).
Proof.
  intros Hx.
  assert (Hn : (0 < Qnum x)%Z) by (destruct x as [n d]; unfold Qlt in Hx; simpl in *; lia).
  pose proof (Q_as_ratio x) as Hr.
  destruct (log2_bounds_Q (Qnum x) Hn) as [Ha0 Ha1].
  destruct (log2_bounds_Q (Zpos (Qden x)) eq_refl) as [Hb0 Hb1].
  unfold ilog2.
  set (a := Z.log2 (Qnum x)) in *. set (b := Z.log2 (Zpos (Qden x))) in *.
  set (N := inject_Z (Qnum x)) in *. set (D := inject_Z (Zpos (Qden x))) in *.
  pose proof (pow2_pos b) as Pb. pose proof (pow2_pos (a - b)) as Pk.
  pose proof (pow2_pos (a - b - 1)) as Pk'.
  assert (E1 : 2 ^ (a + 1) == 2 * (2 ^ (a - b) * 2 ^ b)).
  { rewrite <- pow2_add, <- pow2_succ. apply Qpower_comp_eq || (f_equiv; lia). }
  destruct (Qle_bool (2 ^ (a - b)) x) eqn:Hc.
  - apply Qle_bool_iff in Hc. split; [exact Hc|].
    rewrite pow2_succ.
    assert (H1 : x * 2 ^ b <= x * D) by (apply Qmult_le_l; assumption).
    assert (H2 : x * 2 ^ b < (2 * 2 ^ (a - b)) * 2 ^ b) by lra.
    apply Qmult_lt_r in H2; assumption.
  - assert (Hlt : x < 2 ^ (a - b)).
    { apply Qnot_le_lt. intros H. apply Qle_bool_iff in H. congruence. }
    replace (a - b - 1 + 1)%Z with (a - b)%Z by lia. split; [|exact Hlt].
    assert (E2 : 2 ^ (a - b) == 2 * 2 ^ (a - b - 1)).
    { rewrite <- pow2_succ. f_equiv; lia. }
    rewrite pow2_succ in Hb1.
    assert (E3 : 2 ^ a == 2 ^ (a - b - 1) * (2 * 2 ^ b)).
    { rewrite <- pow2_succ, <- pow2_add. f_equiv; lia. }
    assert (H1 : x * D <= x * (2 * 2 ^ b)) by (apply Qmult_le_l; [assumption | lra]).
    assert (H2 : 2 ^ (a - b - 1) * (2 * 2 ^ b) <= x * (2 * 2 ^ b)) by lra.
    apply Qmult_le_r in H2; [assumption | lra].
Qed.

Lemma ilog2_unique (x : Q) (e : Z) :
  2 ^ e <= x -> x < 2 ^ (e + 1) -> ilog2 x = e.
Proof.
  intros Hlo Hhi.
  assert (Hx : 0 < x) by (pose proof (pow2_pos e); lra).
  destruct (ilog2_spec x Hx) as [Ilo Ihi].
  assert (e < ilog2 x + 1)%Z by (apply pow2_lt_inv; lra).
  assert (ilog2 x < e + 1)%Z by (apply pow2_lt_inv; lra).
  lia.
Qed.

Lemma ilog2_mono (x y : Q) : 0 < x -> x <= y -> (ilog2 x <= ilog2 y)%Z.
Proof.
  intros Hx Hxy.
  destruct (ilog2_spec x Hx) as [Xlo _].
  destruct (ilog2_spec y ltac:(lra)) as [_ Yhi].
  assert (ilog2 x < ilog2 y + 1)%Z by (apply pow2_lt_inv; lra).
  lia.
Qed.

Lemma rne_floor_or_succ (t : Q) : rne t = Qfloor t \/ rne t = (Qfloor t + 1)%Z.
Proof.
  unfold rne. destruct (_ ?= _); [destruct (Z.even _)|..]; auto.
Qed.

Lemma rne_inject (z : Z) : rne (inject_Z z) = z.
Proof.
  unfold rne. rewrite Qfloor_Z.
  destruct (Qcompare_spec ((inject_Z z - inject_Z z) * 2) 1) as [H | H | H];
    [exfalso; lra | reflexivity | exfalso; lra].
Qed.

Lemma rne_mono (s t : Q) : s <= t -> (rne s <= rne t)%Z.
Proof.
  intros Hst.
  pose proof (Qfloor_resp_le s t Hst) as Hf.
  destruct (Z.eq_dec (Qfloor s) (Qfloor t)) as [E | N].
  - unfold rne. rewrite E.
    destruct (Qcompare_spec ((s - inject_Z (Qfloor t)) * 2) 1) as [Cs | Cs | Cs];
    destruct (Qcompare_spec ((t - inject_Z (Qfloor t)) * 2) 1) as [Ct | Ct | Ct];
    try (destruct (Z.even (Qfloor t))); try lia; exfalso; lra.
  - destruct (rne_floor_or_succ s) as [-> | ->], (rne_floor_or_succ t) as [-> | ->]; lia.
Qed.

Lemma rne_comp (s t : Q) : s == t -> rne s = rne t.
Proof.
  intros E. apply Z.le_antisymm; apply rne_mono; rewrite E; apply Qle_refl.
Qed.

Lemma Qabs_nonneg_eq (x : Q) : 0 <= x -> Qabs x = x.
Proof.
  destruct x as [n d]. unfold Qle, Qabs. simpl. intros H.
  f_equal. apply Z.abs_eq. lia.
Qed.

Lemma rnd64_nonneg (x : Q) :
  0 <= x -> rnd64 x = inject_Z (rne (x / ulp x)) * ulp x.
Proof.
  intros H. unfold rnd64. rewrite (Qabs_nonneg_eq x H).
  apply Qle_bool_iff in H. rewrite H. reflexivity.
Qed.

Lemma ulp_pos (x : Q) : 0 < ulp x.
Proof. apply pow2_pos. Qed.

Lemma rnd64_0 (x : Q) : x == 0 -> rnd64 x == 0.
Proof.
  intros E. rewrite rnd64_nonneg by lra.
  rewrite (rne_comp (x / ulp x) (inject_Z 0)).
  - rewrite rne_inject. ring.
  - unfold Qdiv. rewrite (Qmult_comp x 0 E (/ ulp x) (/ ulp x) (Qeq_refl _)).
    change (inject_Z 0) with 0. ring.
Qed.

Lemma div_ulp_bounds (x : Q) :
  0 < x ->
  x / ulp x < 2 ^ 53 /\ ((-1022 <= ilog2 x)%Z -> 2 ^ 52 <= x / ulp x).
Proof.
  intros Hx. destruct (ilog2_spec x Hx) as [Lo Hi].
  pose proof (ulp_pos x) as Hu. unfold ulp in *.
  assert (Hle : 2 ^ (ilog2 x + 1) <= 2 ^ (exponent x + 1)).
  { apply pow2_le. unfold exponent. lia. }
  assert (E53 : 2 ^ (exponent x + 1) == 2 ^ 53 * 2 ^ (exponent x - 52)).
  { rewrite <- pow2_add. f_equiv; lia. }
  split.
  - apply Qlt_shift_div_r; [exact Hu |]. lra.
  - intros Hn. apply Qle_shift_div_l; [exact Hu |].
    assert (E52 : 2 ^ ilog2 x == 2 ^ 52 * 2 ^ (exponent x - 52)).
    { rewrite <- pow2_add. f_equiv. unfold exponent. lia. }
    lra.
Qed.

Lemma rnd64_upper (x : Q) : 0 < x -> rnd64 x <= 2 ^ (exponent x + 1).
Proof.
  intros Hx. rewrite rnd64_nonneg by lra.
  destruct (div_ulp_bounds x Hx) as [Hlt _].
  assert (Hm : (rne (x / ulp x) <= 2 ^ 53)%Z).
  { rewrite <- (rne_inject (2 ^ 53)). apply rne_mono.
    rewrite pow2_inject by lia. lra. }
  assert (E53 : 2 ^ (exponent x + 1) == 2 ^ 53 * ulp x).
  { unfold ulp. rewrite <- pow2_add. f_equiv; lia. }
  rewrite E53. apply Qmult_le_compat_r; [| pose proof (ulp_pos x); lra].
  rewrite <- pow2_inject by lia. rewrite <- Zle_Qle. exact Hm.
Qed.

Lemma rnd64_lower (x : Q) :
  0 < x -> (-1022 <= ilog2 x)%Z -> 2 ^ ilog2 x <= rnd64 x.
Proof.
  intros Hx Hn. rewrite rnd64_nonneg by lra.
  destruct (div_ulp_bounds x Hx) as [_ Hge]. specialize (Hge Hn).
  assert (Hm : (2 ^ 52 <= rne (x / ulp x))%Z).
  { rewrite <- (rne_inject (2 ^ 52)) at 1. apply rne_mono.
    rewrite pow2_inject by lia. exact Hge. }
  assert (E52 : 2 ^ ilog2 x == 2 ^ 52 * ulp x).
  { unfold ulp. rewrite <- pow2_add. f_equiv. unfold exponent. lia. }
  rewrite E52. apply Qmult_le_compat_r; [| pose proof (ulp_pos x); lra].
  rewrite <- pow2_inject by lia. rewrite <- Zle_Qle. exact Hm.
Qed.

Lemma rnd64_nonneg_le (x : Q) : 0 <= x -> 0 <= rnd64 x.
Proof.
  intros H. rewrite rnd64_nonneg by exact H.
  apply Qmult_le_0_compat; [| pose proof (ulp_pos x); lra].
  change 0 with (inject_Z 0). rewrite <- Zle_Qle.
  rewrite <- (rne_inject 0). apply rne_mono.
  apply Qle_shift_div_l; [apply ulp_pos |].
  change (inject_Z 0) with 0. lra.
Qed.

(** Rounding is monotone on the nonnegative rationals. *)
Lemma rnd64_mono (x y : Q) : 0 <= x -> x <= y -> rnd64 x <= rnd64 y.
Proof.
  intros Hx Hxy.
  destruct (Qlt_le_dec 0 x) as [Hpos | Hzero].
  2:{ rewrite (rnd64_0 x) by lra. apply rnd64_nonneg_le. lra. }
  assert (Hy : 0 < y) by lra.
  pose proof (ilog2_mono x y Hpos Hxy) as Hlog.
  destruct (Z.eq_dec (exponent x) (exponent y)) as [E | N].
  - rewrite !rnd64_nonneg by lra. unfold ulp. rewrite E.
    apply Qmult_le_compat_r; [| pose proof (pow2_pos (exponent y - 52)); lra].
    rewrite <- Zle_Qle. apply rne_mono.
    apply Qmult_le_compat_r; [exact Hxy |].
    apply Qinv_le_0_compat. pose proof (pow2_pos (exponent y - 52)); lra.
  - assert (Hlt : (exponent x < ilog2 y)%Z /\ (-1022 <= ilog2 y)%Z)
      by (unfold exponent in *; lia).
    destruct Hlt as [Hlt Hn].
    apply Qle_trans with (2 ^ (exponent x + 1)); [apply rnd64_upper; exact Hpos |].
    apply Qle_trans with (2 ^ ilog2 y); [apply pow2_le; lia |].
    apply rnd64_lower; assumption.
Qed.

(** The model agrees with the Standard Library's binary64 operations on
    the largest draw, the one that decides the upper bound of the code. *)
Example agrees_with_SpecFloat :
  let r := S754_finite false 9007199254740991 (-53) in
  let n := S754_finite false 7730941132800000 (-33) in
  let h := S754_finite false 6871947673600000 (-36) in
  equal
    (of_spec_float (SFadd 53 1024 h (SFmul 53 1024 r n)))
    (add (of_spec_float h) (mul (of_spec_float r) (of_spec_float n)))
  = true
  /\ equal (of_spec_float n) (of_Z 900000) = true
  /\ equal (of_spec_float h) (of_Z 100000) = true.
Proof. vm_compute. repeat split. Qed.

Lemma representable_below_one (r : Q) :
  representable r -> 0 <= r -> r < 1 -> r <= 1 - 2 ^ (-53).
Proof.
  unfold representable. intros Hrep H0 H1.
  assert (Hc : 2 ^ (-53) == 1 # 9007199254740992) by reflexivity.
  destruct (Qlt_le_dec 0 r) as [Hpos | Hz]; [| lra].
  destruct (ilog2_spec r Hpos) as [Lo Hi].
  assert (Hneg : (ilog2 r < 0)%Z) by (apply pow2_lt_inv; change (2 ^ 0) with 1; lra).
  destruct (Z.eq_dec (ilog2 r) (-1)%Z) as [E | N].
  - rewrite rnd64_nonneg in Hrep by lra.
    assert (Eu : ulp r = 2 ^ (-53)) by (unfold ulp, exponent; rewrite E; reflexivity).
    rewrite Eu in Hrep. set (m := rne (r / 2 ^ (-53))) in *.
    assert (Hm : (m < 2 ^ 53)%Z).
    { rewrite Zlt_Qlt. rewrite pow2_inject by lia.
      assert (Ep : 2 ^ 53 == 9007199254740992) by reflexivity.
      lra. }
    assert (Hm' : inject_Z m <= inject_Z (2 ^ 53 - 1)) by (rewrite <- Zle_Qle; lia).
    change (inject_Z (2 ^ 53 - 1)) with (9007199254740991 # 1) in Hm'.
    lra.
  - assert (Hh : 2 ^ (ilog2 r + 1) <= 2 ^ (-1)) by (apply pow2_le; lia).
    change (2 ^ (-1)) with (1 # 2) in Hh. lra.
Qed.

Lemma round64_small (x : Q) :
  0 <= x -> x <= 1000000 -> round64 x = Fin (rnd64 x) /\ 0 <= rnd64 x <= 1000000.
Proof.
  intros H0 H1.
  assert (Hr : 0 <= rnd64 x <= 1000000).
  { split; [apply rnd64_nonneg_le; exact H0 |].
    apply Qle_trans with (rnd64 1000000); [apply rnd64_mono; assumption |].
    vm_compute. discriminate. }
  split; [| exact Hr].
  unfold round64. rewrite (Qabs_nonneg_eq _ (proj1 Hr)).
  destruct (Qle_bool (2 ^ 1024) (rnd64 x)) eqn:Hc; [| reflexivity].
  apply Qle_bool_iff in Hc.
  assert (Hbig : 1000000 < 2 ^ 1024) by reflexivity.
  lra.
Qed.

Lemma generate_range (r : Q) :
  Registry.random_draw r -> Registry.six_digit (Registry.generate r).
Proof.
  intros (Hrep & H0 & H1). unfold Registry.six_digit.
  pose proof (representable_below_one r Hrep H0 H1) as Hmax.
  assert (Hc : 2 ^ (-53) == 1 # 9007199254740992) by reflexivity.
  set (X := (1 - 2 ^ (-53)) * 900000).
  assert (Hx : 0 <= r * 900000 <= X) by (unfold X; lra).
  assert (HX : rnd64 X == 900000 - 2 ^ (-33)) by reflexivity.
  assert (Hc' : 2 ^ (-33) == 1 # 8589934592) by reflexivity.
  destruct (round64_small (r * 900000)) as [E1 [L1 _]]; [lra | unfold X in Hx; lra |].
  assert (U1 : rnd64 (r * 900000) <= 900000 - 2 ^ (-33)).
  { rewrite <- HX. apply rnd64_mono; lra. }
  set (y := rnd64 (r * 900000)) in *.
  destruct (round64_small (100000 + y)) as [E2 _]; [lra | lra |].
  assert (L2 : 100000 <= rnd64 (100000 + y)).
  { apply Qle_trans with (rnd64 100000); [vm_compute; discriminate |].
    apply rnd64_mono; lra. }
  assert (U2 : rnd64 (100000 + y) <= 1000000 - 2 ^ (-33)).
  { apply Qle_trans with (rnd64 (1000000 - 2 ^ (-33))); [apply rnd64_mono; lra |].
    vm_compute. discriminate. }
  exists (Qfloor (rnd64 (100000 + y))).
  split.
  - unfold Registry.generate, of_Z, mul, add, floor.
    change (inject_Z 900000) with 900000. rewrite E1.
    change (inject_Z 100000) with 100000. rewrite E2. reflexivity.
  - split.
    + change 100000%Z with (Qfloor 100000). apply Qfloor_resp_le. exact L2.
    + assert (Hlt : (Qfloor (rnd64 (100000 + y)) < 1000000)%Z); [| lia].
      rewrite Zlt_Qlt. pose proof (Qfloor_le (rnd64 (100000 + y))).
      change (inject_Z 1000000) with 1000000. lra.
Qed.

End Binary64.

(** ** Property access on [otpStore] *)

Section ObjectAccess.

Implicit Types (o : gmap string Number.number) (k p q : string)
  (n : Number.number).

Lemma proto_eqb k : String.eqb k "__proto__" = false <-> k <> "__proto__"%string.
Proof. apply String.eqb_neq. Qed.

Lemma set_lookup_same o k n :
  k <> "__proto__"%string -> Obj.set o k n !! k = Some n.
Proof.
  intros Hk. unfold Obj.set. apply proto_eqb in Hk. rewrite Hk.
  destruct (o !! k); apply lookup_insert_eq.
Qed.

Lemma set_lookup_other o k q n : k <> q -> Obj.set o k n !! q = o !! q.
Proof.
  intros Hne. unfold Obj.set.
  destruct (o !! k); [| destruct (String.eqb k "__proto__")];
    try reflexivity; apply lookup_insert_ne; exact Hne.
Qed.

Lemma set_proto o n :
  o !! "__proto__"%string = None -> Obj.set o "__proto__" n = o.
Proof. intros H. unfold Obj.set. rewrite H. reflexivity. Qed.

Lemma set_keeps_no_proto o k n :
  o !! "__proto__"%string = None -> Obj.set o k n !! "__proto__"%string = None.
Proof.
  intros H. destruct (String.eqb_spec k "__proto__") as [-> | Hne].
  - rewrite set_proto; assumption.
  - rewrite set_lookup_other; assumption.
Qed.

Lemma get_own o k n : o !! k = Some n -> Obj.get o k = Num n.
Proof. intros H. unfold Obj.get. rewrite H. reflexivity. Qed.

Lemma get_not_own o k :
  o !! k = None ->
  Obj.get o k = match Obj.inherited k with Some v => v | None => Undefined end.
Proof. intros H. unfold Obj.get. rewrite H. reflexivity. Qed.

(** A read depends on the own property of that key alone. *)
Lemma get_ext o o' k : o !! k = o' !! k -> Obj.get o k = Obj.get o' k.
Proof. intros H. unfold Obj.get. rewrite H. reflexivity. Qed.

(** What the prototype answers: one of its twelve properties. *)
Lemma inherited_cases k v :
  Obj.inherited k = Some v ->
  (k = "__proto__"%string /\ v = ObjectPrototype)
  \/ (k = "constructor"%string /\ v = Builtin "Object")
  \/ (In k Obj.methods /\ v = Builtin k).
Proof.
  unfold Obj.inherited.
  destruct (String.eqb_spec k "__proto__") as [-> | _]; [intros [= <-]; auto |].
  destruct (String.eqb_spec k "constructor") as [-> | _]; [intros [= <-]; auto |].
  destruct (existsb (String.eqb k) Obj.methods) eqn:E; [| discriminate].
  intros [= <-]. right; right. split; [| reflexivity].
  apply existsb_exists in E. destruct E as (m & Hin & Hm).
  apply String.eqb_eq in Hm. subst m. exact Hin.
Qed.

(** An inherited value is an object, hence truthy. *)
Lemma inherited_truthy k v : Obj.inherited k = Some v -> truthy v = true.
Proof.
  intros H. destruct (inherited_cases k v H) as [[_ ->] | [[_ ->] | [_ ->]]];
    reflexivity.
Qed.

(** No inherited value is loosely equal to a Number: its primitive is a
    text that does not read as a number. *)
Lemma inherited_never_number k v n :
  Obj.inherited k = Some v -> loose_equal v (Num n) = false.
Proof.
  intros H. destruct (inherited_cases k v H) as [[_ ->] | [[_ ->] | [Hin ->]]].
  - reflexivity.
  - reflexivity.
  - simpl in Hin.
    repeat (destruct Hin as [<- | Hin]; [reflexivity |]). destruct Hin.
Qed.

End ObjectAccess.

(** ** The registry *)

Section RegistryFacts.

Implicit Types (o : gmap string Number.number) (k p q : string)
  (n : Number.number) (otp : value).

Lemma six_digit_truthy n : Registry.six_digit n -> Number.truthy n = true.
Proof.
  intros (c & -> & Hc). unfold Number.truthy, Number.of_Z, Number.is_zero.
  destruct (Qeq_bool (inject_Z c) 0) eqn:E; [| reflexivity].
  apply Qeq_bool_iff in E. unfold Qeq in E. simpl in E. lia.
Qed.

Lemma six_digit_equal n : Registry.six_digit n -> Number.equal n n = true.
Proof.
  intros (c & -> & _). unfold Number.equal, Number.of_Z.
  apply Qeq_bool_iff. reflexivity.
Qed.

Lemma six_digit_equal_inv n m :
  Registry.six_digit n -> Registry.six_digit m -> Number.equal n m = true -> n = m.
Proof.
  intros (c & -> & _) (d & -> & _). unfold Number.equal, Number.of_Z.
  intros E. apply Qeq_bool_iff in E. unfold Qeq in E. simpl in E.
  f_equal. f_equal. lia.
Qed.

(** [verify] on a key the store owns. *)
Lemma verify_own o p n otp :
  o !! p = Some n ->
  Registry.verify o p otp =
    if Number.truthy n && loose_equal (Num n) otp
    then (true, base.delete p o) else (false, o).
Proof.
  intros H. unfold Registry.verify. rewrite (get_own o p n H). reflexivity.
Qed.

(** [verify] on a key the store does not own and the prototype does not
    know. *)
Lemma verify_unknown o p otp :
  o !! p = None -> Obj.inherited p = None ->
  Registry.verify o p otp = (false, o).
Proof.
  intros H Hi. unfold Registry.verify. rewrite get_not_own, Hi by exact H.
  reflexivity.
Qed.

Lemma issue_well_formed o p r :
  Registry.random_draw r -> Registry.well_formed o ->
  Registry.well_formed (snd (Registry.issue o p r)).
Proof.
  intros Hr Ho k n. simpl.
  destruct (decide (p = k)) as [<- | Hne].
  - destruct (String.eqb_spec p "__proto__") as [-> | Hp].
    + unfold Obj.set. destruct (o !! "__proto__"%string) eqn:E.
      * rewrite lookup_insert_eq. intros [= <-]. apply generate_range, Hr.
      * simpl. rewrite E. discriminate.
    + rewrite set_lookup_same by exact Hp. intros [= <-].
      apply generate_range, Hr.
  - rewrite set_lookup_other by exact Hne. apply Ho.
Qed.

Lemma verify_well_formed o p otp :
  Registry.well_formed o -> Registry.well_formed (snd (Registry.verify o p otp)).
Proof.
  intros Ho k n. unfold Registry.verify.
  destruct (_ && _); simpl; [| apply Ho].
  unfold Obj.delete. intros H. apply lookup_delete_Some in H. apply (Ho k n), H.
Qed.

Lemma verify_keeps_no_proto o p otp :
  o !! "__proto__"%string = None ->
  snd (Registry.verify o p otp) !! "__proto__"%string = None.
Proof.
  intros H. unfold Registry.verify. destruct (_ && _); simpl; [| exact H].
  unfold Obj.delete. apply lookup_delete_None. auto.
Qed.

(** What a request does to the store: the registry operation of its
    route, or nothing. *)
Lemma serve_store o sv rq :
  snd (serve o (sv, rq)) =
    match rq with
    | POST_send_otp phone =>
        if missing phone then o
        else snd (Registry.issue o (text phone) (Math_random sv))
    | POST_verify_otp phone otp =>
        if missing phone || negb (truthy (field_value otp)) then o
        else snd (Registry.verify o (text phone) (field_value otp))
    | _ => o
    end.
Proof.
  destruct rq as [| phone | phone otp | a b]; simpl; try reflexivity.
  - unfold send_otp. destruct (missing phone); [reflexivity |].
    simpl. destruct (messages_create _ _ _ _); reflexivity.
  - unfold verify_otp. destruct (_ || _); [reflexivity |].
    destruct (Registry.verify _ _ _) as [[] o']; reflexivity.
Qed.

Lemma serve_well_formed o call :
  Registry.random_draw (Math_random (fst call)) ->
  Registry.well_formed o -> Registry.well_formed (snd (serve o call)).
Proof.
  destruct call as [sv rq]. intros Hr Ho. rewrite serve_store.
  destruct rq as [| phone | phone otp | a b]; try exact Ho.
  - destruct (missing phone); [exact Ho | apply issue_well_formed; assumption].
  - destruct (_ || _); [exact Ho | apply verify_well_formed; assumption].
Qed.

Lemma serve_keeps_no_proto o call :
  o !! "__proto__"%string = None ->
  snd (serve o call) !! "__proto__"%string = None.
Proof.
  destruct call as [sv rq]. intros Ho. rewrite serve_store.
  destruct rq as [| phone | phone otp | a b]; try exact Ho.
  - destruct (missing phone); [exact Ho | apply set_keeps_no_proto; exact Ho].
  - destruct (_ || _); [exact Ho | apply verify_keeps_no_proto; exact Ho].
Qed.

Lemma run_app o calls calls' : run o (calls ++ calls') = run (run o calls) calls'.
Proof. apply fold_left_app. Qed.

Lemma run_well_formed o calls :
  draws_ok calls -> Registry.well_formed o -> Registry.well_formed (run o calls).
Proof.
  intros Hd. revert o. induction Hd as [| call calls Hc _ IH]; intros o Ho.
  - exact Ho.
  - apply IH. apply serve_well_formed; assumption.
Qed.

Lemma run_keeps_no_proto o calls :
  o !! "__proto__"%string = None -> run o calls !! "__proto__"%string = None.
Proof.
  revert o. induction calls as [| call calls IH]; intros o Ho; [exact Ho |].
  apply IH, serve_keeps_no_proto, Ho.
Qed.

Lemma empty_well_formed : Registry.well_formed ∅.
Proof. intros k n H. rewrite lookup_empty in H. discriminate. Qed.

End RegistryFacts.

(** ** The claims on the OTP registry *)

(** C9. For distinct keys [p] and [q], neither [issue] on [p] nor [verify]
    on [p] changes the entry of [q], own or read: the only key either
    operation can create, change or delete is its own. *)
Theorem C9_frame (o : gmap string Number.number) (p q : string) (r : Q)
    (otp : value) :
  p <> q ->
  snd (Registry.issue o p r) !! q = o !! q
  /\ Obj.get (snd (Registry.issue o p r)) q = Obj.get o q
  /\ snd (Registry.verify o p otp) !! q = o !! q
  /\ Obj.get (snd (Registry.verify o p otp)) q = Obj.get o q.
Proof.
  intros Hne.
  assert (Hi : snd (Registry.issue o p r) !! q = o !! q)
    by (simpl; apply set_lookup_other; exact Hne).
  assert (Hv : snd (Registry.verify o p otp) !! q = o !! q).
  { unfold Registry.verify. destruct (_ && _); [| reflexivity].
    simpl. unfold Obj.delete. apply lookup_delete_ne. exact Hne. }
  repeat split; try assumption; apply get_ext; assumption.
Qed.

Lemma C9_frame_witness :
  "+15550001"%string <> "+15550002"%string
  /\ snd (Registry.issue {[ "+15550002"%string := Number.of_Z 123456 ]}
            "+15550001" (1 # 2)) !! "+15550002"%string
     = Some (Number.of_Z 123456)
  /\ snd (Registry.verify {[ "+15550002"%string := Number.of_Z 123456 ]}
            "+15550001" (Num (Number.of_Z 123456))) !! "+15550002"%string
     = Some (Number.of_Z 123456).
Proof.
  assert (Hne : "+15550001"%string <> "+15550002"%string) by discriminate.
  destruct (C9_frame {[ "+15550002"%string := Number.of_Z 123456 ]}
              "+15550001" "+15550002" (1 # 2) (Num (Number.of_Z 123456)) Hne)
    as (Hi & _ & Hv & _).
  split; [exact Hne |]. split.
  - rewrite Hi. apply lookup_singleton_eq.
  - rewrite Hv. apply lookup_singleton_eq.
Defined.

(** C10. In every state the server reaches from the empty store, under
    draws that [Math.random()] can return, every stored value is an integer
    in [100000, 999999]; so every stored code is truthy, and the guard of
    /verify-otp, which tests the value read and not the presence of the key,
    takes no pending code for an absent one. *)
Theorem C10_registry_invariant (calls : list (services * request)) :
  draws_ok calls ->
  Registry.well_formed (run ∅ calls)
  /\ forall k n, run ∅ calls !! k = Some n ->
       Registry.six_digit n /\ truthy (Obj.get (run ∅ calls) k) = true.
Proof.
  intros Hd.
  assert (Hwf : Registry.well_formed (run ∅ calls))
    by (apply run_well_formed; [exact Hd | apply empty_well_formed]).
  split; [exact Hwf |].
  intros k n Hk. split; [exact (Hwf k n Hk) |].
  rewrite (get_own _ k n Hk). simpl. apply six_digit_truthy, (Hwf k n Hk).
Qed.

Lemma sample_draw : Registry.random_draw (1 # 2).
Proof. repeat split; vm_compute; congruence. Qed.

Lemma C10_registry_invariant_witness :
  draws_ok [(Sample.services_ok, POST_send_otp (Some "+15550001"%string))]
  /\ Registry.well_formed
       (run ∅ [(Sample.services_ok, POST_send_otp (Some "+15550001"%string))]).
Proof.
  assert (Hd : draws_ok
            [(Sample.services_ok, POST_send_otp (Some "+15550001"%string))]).
  { constructor; [exact sample_draw | constructor]. }
  split; [exact Hd |]. exact (proj1 (C10_registry_invariant _ Hd)).
Defined.

(** ** The key [__proto__]

    [otpStore] is a plain object, so the key [__proto__] reaches the
    accessor of [Object.prototype]: a code assigned under it is dropped by
    the setter, and a read of it returns the prototype object, which is
    truthy and whose primitive is the text [[object Object]]. *)

Lemma reachable_no_own_proto (calls : list (services * request)) :
  run ∅ calls !! "__proto__"%string = None.
Proof. apply run_keeps_no_proto, lookup_empty. Qed.

Lemma issue_proto (o : gmap string Number.number) (r : Q) :
  o !! "__proto__"%string = None ->
  Registry.issue o "__proto__" r = (Registry.generate r, o).
Proof. intros H. unfold Registry.issue. rewrite set_proto by exact H. reflexivity. Qed.

Lemma get_proto (o : gmap string Number.number) :
  o !! "__proto__"%string = None -> Obj.get o "__proto__" = ObjectPrototype.
Proof. intros H. rewrite get_not_own by exact H. reflexivity. Qed.

Lemma verify_proto_number (o : gmap string Number.number) (n : Number.number) :
  o !! "__proto__"%string = None ->
  Registry.verify o "__proto__" (Num n) = (false, o).
Proof.
  intros H. unfold Registry.verify. rewrite (get_proto o H). reflexivity.
Qed.

Lemma verify_proto_text (o : gmap string Number.number) :
  o !! "__proto__"%string = None ->
  Registry.verify o "__proto__" (Text "[object Object]") = (true, o).
Proof.
  intros H. unfold Registry.verify. rewrite (get_proto o H). simpl.
  unfold Obj.delete. rewrite delete_id by exact H. reflexivity.
Qed.

(** C1, at the failing input.  In every state the server reaches, no code
    is pending for [__proto__], and yet [verify] accepts the submitted text
    [[object Object]] for it, and /verify-otp answers 200 with a token. *)
Theorem C1_verify_accepts_without_pending
    (calls : list (services * request)) (sv : services) :
  run ∅ calls !! "__proto__"%string = None
  /\ Registry.verify (run ∅ calls) "__proto__" (Text "[object Object]")
     = (true, run ∅ calls)
  /\ verify_otp sv (run ∅ calls) (Some "__proto__"%string)
       (Some (Text "[object Object]"))
     = (json (SuccessToken "OTP verified successfully"
                (jwt_sign sv "__proto__")),
        run ∅ calls).
Proof.
  pose proof (reachable_no_own_proto calls) as H.
  split; [exact H |]. split; [apply verify_proto_text, H |].
  unfold verify_otp. simpl. rewrite (verify_proto_text _ H). reflexivity.
Qed.

(** C2, at the failing input.  [issue] for [__proto__] returns a code and
    stores nothing: the store is as it was, and the key reads as the
    prototype object, not as the code. *)
Theorem C2_issue_proto_stores_nothing
    (calls : list (services * request)) (r : Q) :
  Registry.issue (run ∅ calls) "__proto__" r
  = (Registry.generate r, run ∅ calls)
  /\ Obj.get (snd (Registry.issue (run ∅ calls) "__proto__" r)) "__proto__"
     = ObjectPrototype.
Proof.
  pose proof (reachable_no_own_proto calls) as H.
  rewrite (issue_proto _ r H). split; [reflexivity |]. apply get_proto, H.
Qed.

(** C3, at the failing input.  After [issue] for [__proto__] yields a code,
    the first [verify] with that code already fails. *)
Theorem C3_issue_verify_proto_fails
    (calls : list (services * request)) (r : Q) :
  Registry.verify (snd (Registry.issue (run ∅ calls) "__proto__" r))
    "__proto__" (Num (fst (Registry.issue (run ∅ calls) "__proto__" r)))
  = (false, run ∅ calls).
Proof.
  pose proof (reachable_no_own_proto calls) as H.
  rewrite (issue_proto _ r H). simpl. apply verify_proto_number, H.
Qed.

(** C4, at the failing input.  After two [issue]s for [__proto__], the
    second code is refused as well as the first. *)
Theorem C4_second_code_proto_refused
    (calls : list (services * request)) (r1 r2 : Q) :
  Registry.verify
    (snd (Registry.issue (snd (Registry.issue (run ∅ calls) "__proto__" r1))
            "__proto__" r2))
    "__proto__" (Num (Registry.generate r2))
  = (false, run ∅ calls).
Proof.
  pose proof (reachable_no_own_proto calls) as H.
  rewrite (issue_proto _ r1 H). simpl. rewrite (set_proto _ _ H).
  apply verify_proto_number, H.
Qed.

(** C8, at the failing input.  /send-otp for [__proto__] whose delivery
    fails answers 500 and leaves the store as it was: the code it generated
    is not stored, and /verify-otp refuses it. *)
Theorem C8_failed_send_proto_stores_nothing
    (calls : list (services * request)) (sv : services) :
  Registry.random_draw (Math_random sv) ->
  (forall otp from to, messages_create sv otp from to = false) ->
  send_otp sv (run ∅ calls) (Some "__proto__"%string)
  = (fail 500 "Failed to send OTP", run ∅ calls,
     [SmsCreate (Registry.generate (Math_random sv))
        (TWILIO_PHONE_NUMBER sv) "__proto__"])
  /\ verify_otp sv (run ∅ calls) (Some "__proto__"%string)
       (Some (Num (Registry.generate (Math_random sv))))
     = (fail 401 "Invalid OTP", run ∅ calls).
Proof.
  intros Hr Hdown. pose proof (reachable_no_own_proto calls) as H.
  split.
  - unfold send_otp. cbn [missing text String.eqb].
    rewrite (issue_proto _ _ H), Hdown. reflexivity.
  - unfold verify_otp. cbn [missing text String.eqb field_value truthy].
    rewrite (six_digit_truthy _ (generate_range _ Hr)).
    rewrite (verify_proto_number _ _ H). reflexivity.
Qed.

Lemma C8_failed_send_proto_witness :
  Registry.random_draw (Math_random Sample.services_sms_down)
  /\ fst (fst (send_otp Sample.services_sms_down ∅ (Some "__proto__"%string)))
     = fail 500 "Failed to send OTP"
  /\ snd (fst (send_otp Sample.services_sms_down ∅ (Some "__proto__"%string)))
     = ∅.
Proof.
  assert (Hr : Registry.random_draw (Math_random Sample.services_sms_down))
    by exact sample_draw.
  destruct (C8_failed_send_proto_stores_nothing [] Sample.services_sms_down Hr
              (fun _ _ _ => eq_refl)) as [Hs _].
  split; [exact Hr |]. simpl in Hs. rewrite Hs. split; reflexivity.
Defined.

(** ** The bearer-token middleware *)

Lemma split_head (s : string) :
  exists rest, Str.split " " s = before_space s :: rest.
Proof.
  induction s as [| c t [rest IH]]; simpl.
  - exists []. reflexivity.
  - destruct (Ascii.eqb c " ").
    + eexists. reflexivity.
    + rewrite IH. eexists. reflexivity.
Qed.

(** The token the middleware reads from a header [Bearer <rest>]. *)
Lemma bearer_token (rest : string) :
  nth_error (Str.split " " ("Bearer " ++ rest)) 1 = Some (before_space rest).
Proof.
  destruct (split_head rest) as [tl E].
  change (Str.split " " ("Bearer " ++ rest))
    with ("Bearer"%string :: Str.split " " rest).
  rewrite E. reflexivity.
Qed.

Lemma authenticate_bearer (sv : services) (rest : string) :
  authenticateToken sv (Some ("Bearer " ++ rest)%string) =
    match jwt_verify sv (before_space rest) with
    | Some decoded => Next decoded
    | None => Rejected (fail 403 "Invalid or expired token")
    end.
Proof.
  unfold authenticateToken. cbn [text]. rewrite bearer_token.
  replace (missing (Some ("Bearer " ++ rest)%string)) with false by reflexivity.
  replace (Str.startsWith ("Bearer " ++ rest) "Bearer ") with true; [reflexivity |].
  unfold Str.startsWith. simpl. destruct rest; reflexivity.
Qed.

Lemma authenticate_no_bearer (sv : services) (authorization : option string) :
  missing authorization = true
  \/ Str.startsWith (text authorization) "Bearer " = false ->
  authenticateToken sv authorization
  = Rejected (fail 401 "Unauthorized: Token required").
Proof.
  intros H. unfold authenticateToken.
  destruct (missing authorization); [reflexivity |].
  destruct H as [H | H]; [discriminate |]. rewrite H. reflexivity.
Qed.

(** C7. A request to /add-student whose Authorization header is missing,
    empty or does not start with [Bearer ] is answered 401; one whose
    bearer token the token library refuses is answered 403; and in both
    cases no call on the store is made. *)
Theorem C7_rejected_before_store (sv : services)
    (authorization : option string) (b : registration) :
  (missing authorization = true
   \/ Str.startsWith (text authorization) "Bearer " = false ->
   add_student sv authorization b
   = (fail 401 "Unauthorized: Token required", []))
  /\ (forall rest,
        authorization = Some ("Bearer " ++ rest)%string ->
        jwt_verify sv (before_space rest) = None ->
        add_student sv authorization b
        = (fail 403 "Invalid or expired token", [])).
Proof.
  split.
  - intros H. unfold add_student. rewrite authenticate_no_bearer by exact H.
    reflexivity.
  - intros rest -> Hv. unfold add_student.
    rewrite authenticate_bearer, Hv. reflexivity.
Qed.

Lemma C7_rejected_before_store_witness :
  add_student Sample.services_ok None Sample.student_a
  = (fail 401 "Unauthorized: Token required", [])
  /\ add_student Sample.services_ok (Some "Bearer stale"%string) Sample.student_a
     = (fail 403 "Invalid or expired token", []).
Proof.
  split.
  - apply (proj1 (C7_rejected_before_store Sample.services_ok None
                    Sample.student_a)).
    left. reflexivity.
  - apply (proj2 (C7_rejected_before_store Sample.services_ok
                    (Some "Bearer stale"%string) Sample.student_a) "stale");
      reflexivity.
Defined.

(** ** Registration *)







(** ** The token issuer *)

(** C5.  A token of the issuer verifies, and returns the claims put in it,
    at every clock time up to 24 hours after issuance; it fails with
    [ExpiredOrInvalid] once the clock exceeds issuance plus 24 hours; and
    any token whose signature does not verify fails with
    [ExpiredOrInvalid] at every time. *)
Theorem C5_token_window (mac : string -> string * Z * Z -> Z)
    (secret phone : string) (issued now : Z) :
  (now <= issued + 24 * 60 * 60 ->
   TokenIssuer.verify mac secret now (TokenIssuer.issue mac secret issued phone)
   = inl phone)
  /\ (issued + 24 * 60 * 60 < now ->
      TokenIssuer.verify mac secret now
        (TokenIssuer.issue mac secret issued phone)
      = inr TokenIssuer.ExpiredOrInvalid)
  /\ (forall t : TokenIssuer.token,
        TokenIssuer.signature t
        <> mac secret (TokenIssuer.phoneKey t, TokenIssuer.issuedAt t,
                       TokenIssuer.expiresAt t) ->
        TokenIssuer.verify mac secret now t = inr TokenIssuer.ExpiredOrInvalid).
Proof.
  unfold TokenIssuer.verify, TokenIssuer.issue, TokenIssuer.validity. simpl.
  rewrite Z.eqb_refl. simpl.
  split; [| split].
  - intros H. apply Z.ltb_ge in H. rewrite H. reflexivity.
  - intros H. apply Z.ltb_lt in H. rewrite H. reflexivity.
  - intros t H. apply Z.eqb_neq in H. rewrite H. reflexivity.
Qed.

Lemma C5_token_window_witness :
  TokenIssuer.verify (fun _ _ => 7) "secret" 86400
    (TokenIssuer.issue (fun _ _ => 7) "secret" 0 "+15551234567")
  = inl "+15551234567"%string
  /\ TokenIssuer.verify (fun _ _ => 7) "secret" 86401
       (TokenIssuer.issue (fun _ _ => 7) "secret" 0 "+15551234567")
     = inr TokenIssuer.ExpiredOrInvalid.
Proof.
  destruct (C5_token_window (fun _ _ => 7) "secret" "+15551234567" 0 86400)
    as (Hin & _ & _).
  destruct (C5_token_window (fun _ _ => 7) "secret" "+15551234567" 0 86401)
    as (_ & Hout & _).
  split; [apply Hin | apply Hout]; reflexivity.
Defined.

(** ** Further properties of the registry *)

Section RegistryMore.

Implicit Types (o : gmap string Number.number) (k p q : string)
  (n : Number.number) (otp : value).

Lemma loose_equal_boolean (x : value) (b : bool) :
  loose_equal x (Boolean b)
  = loose_equal x (Num (Number.of_Z (if b then 1 else 0))).
Proof. reflexivity. Qed.

(** On a well-formed store the guard of [verify] is decided by the own
    entry of the key when there is one. *)
Lemma verify_pending o p n otp :
  Registry.well_formed o -> o !! p = Some n ->
  Registry.verify o p otp =
    if loose_equal (Num n) otp then (true, base.delete p o) else (false, o).
Proof.
  intros Ho H. rewrite (verify_own o p n otp H).
  rewrite (six_digit_truthy n (Ho p n H)). reflexivity.
Qed.

(** A Number is never accepted for a key with no own entry, whatever the
    prototype holds for it. *)
Lemma verify_not_pending_number o p n :
  o !! p = None -> Registry.verify o p (Num n) = (false, o).
Proof.
  intros H. unfold Registry.verify. rewrite (get_not_own o p H).
  destruct (Obj.inherited p) as [v |] eqn:E; [| reflexivity].
  rewrite (inherited_never_number p v n E), andb_false_r. reflexivity.
Qed.

Lemma six_digit_not_boolean n b :
  Registry.six_digit n -> loose_equal (Num n) (Boolean b) = false.
Proof.
  intros (c & -> & Hc). rewrite loose_equal_boolean.
  unfold loose_equal, Number.of_Z. simpl.
  destruct (Qeq_bool (inject_Z c) (inject_Z (if b then 1 else 0))) eqn:E;
    [| reflexivity].
  apply Qeq_bool_iff in E. unfold Qeq in E. simpl in E. destruct b; simpl in E; lia.
Qed.

End RegistryMore.

(** X1. Under every draw that [Math.random()] can return, a binary64 value
    in [0, 1), the generated code is an integer in [100000, 999999]. *)
Theorem X1_generate_six_digit (r : Q) :
  Registry.random_draw r ->
  exists c : Z,
    Registry.generate r = Number.of_Z c /\ 100000 <= c <= 999999.
Proof. exact (generate_range r). Qed.

Lemma X1_generate_six_digit_witness :
  Registry.random_draw (1 # 2)
  /\ exists c : Z,
       Registry.generate (1 # 2) = Number.of_Z c /\ 100000 <= c <= 999999.
Proof.
  split; [exact sample_draw |].
  apply (X1_generate_six_digit (1 # 2)). exact sample_draw.
Defined.

(** The bound needs the draw to be a binary64 value: a rational closer to 1
    than any binary64 value below 1 would give the seven-digit 1000000. *)
Example generate_needs_binary64 :
  Registry.generate (1 - (1 # 1152921504606846976)) = Number.of_Z 1000000.
Proof. vm_compute. reflexivity. Qed.

Lemma issue_ordinary (o : gmap string Number.number) (p : string) (r : Q) :
  p <> "__proto__"%string ->
  Registry.issue o p r = (Registry.generate r, <[p := Registry.generate r]> o).
Proof.
  intros Hp. unfold Registry.issue, Obj.set. apply proto_eqb in Hp. rewrite Hp.
  destruct (o !! p); reflexivity.
Qed.

(** X2. For every key other than [__proto__], [issue] returns the code it
    generated and leaves the store with exactly that code under the key,
    whatever was pending there before; the key then reads as the code. *)
Theorem X2_issue_stores (o : gmap string Number.number) (p : string) (r : Q) :
  p <> "__proto__"%string ->
  Registry.issue o p r = (Registry.generate r, <[p := Registry.generate r]> o)
  /\ Obj.get (snd (Registry.issue o p r)) p = Num (Registry.generate r).
Proof.
  intros Hp. rewrite (issue_ordinary o p r Hp). split; [reflexivity |].
  apply get_own. apply lookup_insert_eq.
Qed.

Lemma X2_issue_stores_witness :
  "+15550001"%string <> "__proto__"%string
  /\ Registry.issue {[ "+15550001"%string := Number.of_Z 123456 ]}
       "+15550001" (1 # 2)
     = (Registry.generate (1 # 2),
        <[ "+15550001"%string := Registry.generate (1 # 2) ]>
          {[ "+15550001"%string := Number.of_Z 123456 ]}).
Proof.
  assert (H : "+15550001"%string <> "__proto__"%string) by discriminate.
  split; [exact H |].
  exact (proj1 (X2_issue_stores _ "+15550001" (1 # 2) H)).
Defined.

(** X3. On a well-formed store and for a key that is not a property name
    of [Object.prototype], [verify] succeeds exactly when a code is pending
    for the key and is loosely equal to the submitted value; it then removes
    that entry and nothing else, and otherwise leaves the store as it is. *)
Theorem X3_verify_ordinary_key (o : gmap string Number.number) (p : string)
    (otp : value) :
  Registry.well_formed o -> Obj.inherited p = None ->
  (fst (Registry.verify o p otp) = true
   <-> exists c, o !! p = Some c /\ loose_equal (Num c) otp = true)
  /\ snd (Registry.verify o p otp)
     = if fst (Registry.verify o p otp) then base.delete p o else o.
Proof.
  intros Ho Hi. destruct (o !! p) as [c |] eqn:E.
  - rewrite (verify_pending o p c otp Ho E).
    destruct (loose_equal (Num c) otp) eqn:L; simpl.
    + split; [| reflexivity]. split; [eauto | reflexivity].
    + split; [| reflexivity]. split; [discriminate |].
      intros (c' & [= <-] & L'). congruence.
  - rewrite (verify_unknown o p otp E Hi). simpl.
    split; [| reflexivity]. split; [discriminate |].
    intros (c' & [=] & _).
Qed.

Lemma X3_verify_ordinary_key_witness :
  Registry.well_formed {[ "+15550001"%string := Number.of_Z 123456 ]}
  /\ Obj.inherited "+15550001" = None
  /\ snd (Registry.verify {[ "+15550001"%string := Number.of_Z 123456 ]}
            "+15550001" (Text "123456"))
     = if fst (Registry.verify {[ "+15550001"%string := Number.of_Z 123456 ]}
                 "+15550001" (Text "123456"))
       then base.delete "+15550001"%string
              {[ "+15550001"%string := Number.of_Z 123456 ]}
       else {[ "+15550001"%string := Number.of_Z 123456 ]}.
Proof.
  assert (Hw : Registry.well_formed {[ "+15550001"%string := Number.of_Z 123456 ]}).
  { intros k n H. apply lookup_singleton_Some in H. destruct H as [_ <-].
    exists 123456. split; [reflexivity | lia]. }
  split; [exact Hw |]. split; [reflexivity |].
  exact (proj2 (X3_verify_ordinary_key _ "+15550001" (Text "123456") Hw eq_refl)).
Defined.

(** X4. On a well-formed store, for every key, the names of
    [Object.prototype] included: a submitted Number is accepted exactly when
    a code is pending for the key and equals it, and a submitted Boolean is
    never accepted. *)
Theorem X4_verify_number_any_key (o : gmap string Number.number) (p : string)
    (n : Number.number) (b : bool) :
  Registry.well_formed o ->
  (fst (Registry.verify o p (Num n)) = true
   <-> exists c, o !! p = Some c /\ Number.equal c n = true)
  /\ Registry.verify o p (Boolean b) = (false, o).
Proof.
  intros Ho. split.
  - destruct (o !! p) as [c |] eqn:E.
    + rewrite (verify_pending o p c _ Ho E).
      change (loose_equal (Num c) (Num n)) with (Number.equal c n).
      destruct (Number.equal c n) eqn:L; simpl.
      * split; [eauto | reflexivity].
      * split; [discriminate |]. intros (c' & [= <-] & L'). congruence.
    + rewrite (verify_not_pending_number o p n E). simpl.
      split; [discriminate |]. intros (c' & [=] & _).
  - destruct (o !! p) as [c |] eqn:E.
    + rewrite (verify_pending o p c _ Ho E).
      rewrite (six_digit_not_boolean c b (Ho p c E)). reflexivity.
    + unfold Registry.verify. rewrite loose_equal_boolean.
      fold (Registry.verify o p (Num (Number.of_Z (if b then 1 else 0)))).
      apply verify_not_pending_number, E.
Qed.

Lemma sample_store_well_formed :
  Registry.well_formed {[ "+15550001"%string := Number.of_Z 123456 ]}.
Proof.
  intros k n H. apply lookup_singleton_Some in H. destruct H as [_ <-].
  exists 123456. split; [reflexivity | lia].
Qed.

Lemma X4_verify_number_any_key_witness :
  Registry.well_formed {[ "+15550001"%string := Number.of_Z 123456 ]}
  /\ Registry.verify {[ "+15550001"%string := Number.of_Z 123456 ]}
       "constructor" (Boolean true)
     = (false, {[ "+15550001"%string := Number.of_Z 123456 ]}).
Proof.
  split; [exact sample_store_well_formed |].
  exact (proj2 (X4_verify_number_any_key _ "constructor" (Number.of_Z 1) true
                  sample_store_well_formed)).
Defined.

(** ** The two OTP routes together *)

Section Flows.

Implicit Types (o : gmap string Number.number) (p : string) (sv : services)
  (n c : Number.number).

Lemma send_otp_stores sv o p :
  p <> ""%string -> p <> "__proto__"%string ->
  send_otp sv o (Some p)
  = (if messages_create sv (Registry.generate (Math_random sv))
          (TWILIO_PHONE_NUMBER sv) p
     then json (Success "OTP sent successfully")
     else fail 500 "Failed to send OTP",
     <[p := Registry.generate (Math_random sv)]> o,
     [SmsCreate (Registry.generate (Math_random sv)) (TWILIO_PHONE_NUMBER sv) p]).
Proof.
  intros Hne Hp. unfold send_otp. cbn [missing text].
  apply String.eqb_neq in Hne. rewrite Hne.
  rewrite (issue_ordinary o p (Math_random sv) Hp).
  destruct (messages_create _ _ _ _); reflexivity.
Qed.

(** The stored code, submitted as the Number it is, is accepted. *)
Lemma verify_stored_code o p c :
  Registry.six_digit c ->
  Registry.verify (<[p := c]> o) p (Num c) = (true, base.delete p o).
Proof.
  intros Hc. rewrite (verify_own _ p c _ (lookup_insert_eq o p c)).
  rewrite (six_digit_truthy c Hc).
  change (loose_equal (Num c) (Num c)) with (Number.equal c c).
  rewrite (six_digit_equal c Hc). simpl. rewrite delete_insert_eq. reflexivity.
Qed.

Lemma verify_otp_number sv o p n :
  p <> ""%string -> Number.truthy n = true ->
  verify_otp sv o (Some p) (Some (Num n))
  = if fst (Registry.verify o p (Num n))
    then (json (SuccessToken "OTP verified successfully" (jwt_sign sv p)),
          snd (Registry.verify o p (Num n)))
    else (fail 401 "Invalid OTP", snd (Registry.verify o p (Num n))).
Proof.
  intros Hne Hn. unfold verify_otp. cbn [missing text field_value truthy].
  apply String.eqb_neq in Hne. rewrite Hne, Hn. simpl.
  destruct (Registry.verify o p (Num n)) as [[] o']; reflexivity.
Qed.

End Flows.

(** X5. The round trip through both routes, for a phone that is neither
    empty nor [__proto__]: /send-otp stores the generated code and hands
    that same code to the SMS client; /verify-otp with that code then
    answers 200 with a token for the phone and removes the entry; the same
    request once more is answered 401. *)
Theorem X5_send_then_verify_once (sv sv1 sv2 : services)
    (o : gmap string Number.number) (p : string) :
  p <> ""%string -> p <> "__proto__"%string ->
  Registry.random_draw (Math_random sv) ->
  (forall otp from to, messages_create sv otp from to = true) ->
  send_otp sv o (Some p)
  = (json (Success "OTP sent successfully"),
     <[p := Registry.generate (Math_random sv)]> o,
     [SmsCreate (Registry.generate (Math_random sv)) (TWILIO_PHONE_NUMBER sv) p])
  /\ verify_otp sv1 (<[p := Registry.generate (Math_random sv)]> o) (Some p)
       (Some (Num (Registry.generate (Math_random sv))))
     = (json (SuccessToken "OTP verified successfully" (jwt_sign sv1 p)),
        base.delete p o)
  /\ verify_otp sv2 (base.delete p o) (Some p)
       (Some (Num (Registry.generate (Math_random sv))))
     = (fail 401 "Invalid OTP", base.delete p o).
Proof.
  intros Hne Hp Hr Hsms.
  pose proof (generate_range _ Hr) as Hc.
  pose proof (six_digit_truthy _ Hc) as Ht.
  split; [| split].
  - rewrite (send_otp_stores sv o p Hne Hp), Hsms. reflexivity.
  - rewrite (verify_otp_number sv1 _ p _ Hne Ht).
    rewrite (verify_stored_code o p _ Hc). reflexivity.
  - rewrite (verify_otp_number sv2 _ p _ Hne Ht).
    rewrite (verify_not_pending_number _ p _ (lookup_delete_eq o p)). reflexivity.
Qed.

Lemma X5_send_then_verify_once_witness :
  Registry.random_draw (Math_random Sample.services_ok)
  /\ verify_otp Sample.services_ok
       (<[ "+15550001"%string := Registry.generate (Math_random Sample.services_ok) ]> ∅)
       (Some "+15550001"%string)
       (Some (Num (Registry.generate (Math_random Sample.services_ok))))
     = (json (SuccessToken "OTP verified successfully"
                (jwt_sign Sample.services_ok "+15550001")),
        base.delete "+15550001"%string ∅).
Proof.
  split; [exact sample_draw |].
  refine (proj1 (proj2 (X5_send_then_verify_once Sample.services_ok
                          Sample.services_ok Sample.services_ok ∅ "+15550001"
                          _ _ sample_draw (fun _ _ _ => eq_refl))));
    discriminate.
Defined.

(** X6. Issuing twice for a key other than [__proto__] invalidates the
    first code: when the two codes differ, [verify] refuses the first and
    keeps the entry, and accepts the second. *)
Theorem X6_reissue_invalidates (o : gmap string Number.number) (p : string)
    (r1 r2 : Q) :
  p <> "__proto__"%string ->
  Registry.random_draw r1 -> Registry.random_draw r2 ->
  Registry.generate r1 <> Registry.generate r2 ->
  snd (Registry.issue (snd (Registry.issue o p r1)) p r2)
  = <[p := Registry.generate r2]> o
  /\ Registry.verify (<[p := Registry.generate r2]> o) p
       (Num (Registry.generate r1))
     = (false, <[p := Registry.generate r2]> o)
  /\ Registry.verify (<[p := Registry.generate r2]> o) p
       (Num (Registry.generate r2))
     = (true, base.delete p o).
Proof.
  intros Hp H1 H2 Hne.
  pose proof (generate_range _ H1) as Hc1.
  pose proof (generate_range _ H2) as Hc2.
  split; [| split].
  - rewrite (issue_ordinary o p r1 Hp). cbn [snd].
    rewrite (issue_ordinary _ p r2 Hp). cbn [snd]. apply insert_insert_eq.
  - rewrite (verify_own _ p _ _ (lookup_insert_eq o p _)).
    rewrite (six_digit_truthy _ Hc2).
    change (loose_equal (Num (Registry.generate r2)) (Num (Registry.generate r1)))
      with (Number.equal (Registry.generate r2) (Registry.generate r1)).
    destruct (Number.equal _ _) eqn:E; [| reflexivity].
    exfalso. apply Hne. symmetry. apply six_digit_equal_inv; assumption.
  - apply verify_stored_code, Hc2.
Qed.

Lemma X6_reissue_invalidates_witness :
  Registry.generate (1 # 2) <> Registry.generate (1 # 4)
  /\ Registry.verify (<[ "+15550001"%string := Registry.generate (1 # 4) ]> ∅)
       "+15550001" (Num (Registry.generate (1 # 2)))
     = (false, <[ "+15550001"%string := Registry.generate (1 # 4) ]> ∅).
Proof.
  assert (Hne : Registry.generate (1 # 2) <> Registry.generate (1 # 4))
    by (vm_compute; discriminate).
  assert (H4 : Registry.random_draw (1 # 4))
    by (repeat split; vm_compute; congruence).
  split; [exact Hne |].
  refine (proj1 (proj2 (X6_reissue_invalidates ∅ "+15550001" (1 # 2) (1 # 4)
                          _ sample_draw H4 Hne))).
  discriminate.
Defined.

(** X7. A wrong code leaves the pending entry intact: after [issue] for a
    key other than [__proto__], [verify] with a value not loosely equal to
    the code returns false and changes nothing, and a [verify] with the
    code after it still succeeds. *)
Theorem X7_wrong_code_keeps_entry (o : gmap string Number.number) (p : string)
    (r : Q) (wrong : value) :
  p <> "__proto__"%string -> Registry.random_draw r ->
  loose_equal (Num (Registry.generate r)) wrong = false ->
  Registry.verify (snd (Registry.issue o p r)) p wrong
  = (false, snd (Registry.issue o p r))
  /\ Registry.verify
       (snd (Registry.verify (snd (Registry.issue o p r)) p wrong)) p
       (Num (Registry.generate r))
     = (true, base.delete p o).
Proof.
  intros Hp Hr Hw. pose proof (generate_range _ Hr) as Hc.
  rewrite (issue_ordinary o p r Hp). cbn [snd].
  assert (E : Registry.verify (<[p := Registry.generate r]> o) p wrong
              = (false, <[p := Registry.generate r]> o)).
  { rewrite (verify_own _ p _ _ (lookup_insert_eq o p _)).
    rewrite Hw, andb_false_r. reflexivity. }
  rewrite E. split; [reflexivity |]. cbn [snd]. apply verify_stored_code, Hc.
Qed.

Lemma X7_wrong_code_keeps_entry_witness :
  loose_equal (Num (Registry.generate (1 # 2))) (Text "000000") = false
  /\ Registry.verify (snd (Registry.issue ∅ "+15550001" (1 # 2))) "+15550001"
       (Text "000000")
     = (false, snd (Registry.issue ∅ "+15550001" (1 # 2))).
Proof.
  assert (Hw : loose_equal (Num (Registry.generate (1 # 2))) (Text "000000")
               = false) by (vm_compute; reflexivity).
  split; [exact Hw |].
  refine (proj1 (X7_wrong_code_keeps_entry ∅ "+15550001" (1 # 2)
                   (Text "000000") _ sample_draw Hw)).
  discriminate.
Defined.

(** X8. Sending is not atomic with delivery: for a phone that is neither
    empty nor [__proto__], a /send-otp that answers 500 because the SMS
    client rejected the message has stored the new code over any earlier
    one and does not roll it back; /verify-otp accepts that code. *)
Theorem X8_failed_delivery_keeps_code (sv sv1 : services)
    (o : gmap string Number.number) (p : string) :
  p <> ""%string -> p <> "__proto__"%string ->
  Registry.random_draw (Math_random sv) ->
  (forall otp from to, messages_create sv otp from to = false) ->
  send_otp sv o (Some p)
  = (fail 500 "Failed to send OTP",
     <[p := Registry.generate (Math_random sv)]> o,
     [SmsCreate (Registry.generate (Math_random sv)) (TWILIO_PHONE_NUMBER sv) p])
  /\ verify_otp sv1 (<[p := Registry.generate (Math_random sv)]> o) (Some p)
       (Some (Num (Registry.generate (Math_random sv))))
     = (json (SuccessToken "OTP verified successfully" (jwt_sign sv1 p)),
        base.delete p o).
Proof.
  intros Hne Hp Hr Hsms.
  pose proof (generate_range _ Hr) as Hc.
  split.
  - rewrite (send_otp_stores sv o p Hne Hp), Hsms. reflexivity.
  - rewrite (verify_otp_number sv1 _ p _ Hne (six_digit_truthy _ Hc)).
    rewrite (verify_stored_code o p _ Hc). reflexivity.
Qed.

Lemma X8_failed_delivery_keeps_code_witness :
  Registry.random_draw (Math_random Sample.services_sms_down)
  /\ send_otp Sample.services_sms_down
       {[ "+15550001"%string := Number.of_Z 123456 ]} (Some "+15550001"%string)
     = (fail 500 "Failed to send OTP",
        <[ "+15550001"%string :=
             Registry.generate (Math_random Sample.services_sms_down) ]>
          {[ "+15550001"%string := Number.of_Z 123456 ]},
        [SmsCreate (Registry.generate (Math_random Sample.services_sms_down))
           (TWILIO_PHONE_NUMBER Sample.services_sms_down) "+15550001"]).
Proof.
  split; [exact sample_draw |].
  refine (proj1 (X8_failed_delivery_keeps_code Sample.services_sms_down
                   Sample.services_ok _ "+15550001" _ _ sample_draw
                   (fun _ _ _ => eq_refl)));
    discriminate.
Defined.

(** ** Codes submitted as text *)

Section Binary64Integers.

Import Number.
Local Open Scope Q_scope.

Lemma ilog2_comp (x y : Q) : 0 < x -> x == y -> ilog2 x = ilog2 y.
Proof.
  intros Hx E. destruct (ilog2_spec x Hx) as [Lo Hi].
  symmetry. apply ilog2_unique; rewrite <- E; assumption.
Qed.

Lemma rnd64_comp (x y : Q) : 0 < x -> x == y -> rnd64 x == rnd64 y.
Proof.
  intros Hx E. rewrite !rnd64_nonneg by (rewrite <- ?E; lra).
  unfold ulp, exponent. rewrite <- (ilog2_comp x y Hx E).
  rewrite (rne_comp (x / 2 ^ (Z.max (ilog2 x) (-1022) - 52))
             (y / 2 ^ (Z.max (ilog2 x) (-1022) - 52))); [reflexivity |].
  unfold Qdiv. apply Qmult_comp; [exact E | reflexivity].
Qed.

(** An integer below 2^53 is a binary64 value. *)
Lemma rnd64_integer (z : Z) :
  (0 < z < 2 ^ 53)%Z -> rnd64 (inject_Z z) == inject_Z z.
Proof.
  intros [Hz0 Hz1].
  assert (Hx : 0 < inject_Z z) by (change 0 with (inject_Z 0); rewrite <- Zlt_Qlt; exact Hz0).
  destruct (ilog2_spec _ Hx) as [Lo Hi].
  set (e := ilog2 (inject_Z z)) in *.
  assert (Hz53 : inject_Z z < 2 ^ 53).
  { rewrite <- pow2_inject by lia. rewrite <- Zlt_Qlt. exact Hz1. }
  assert (Hz1' : 2 ^ 0 <= inject_Z z).
  { change (2 ^ 0) with (inject_Z 1). rewrite <- Zle_Qle. lia. }
  assert (He : (0 <= e <= 52)%Z).
  { split.
    - assert (0 < e + 1)%Z by (apply pow2_lt_inv; lra). lia.
    - assert (e < 53)%Z by (apply pow2_lt_inv; lra). lia. }
  rewrite rnd64_nonneg by lra. unfold ulp, exponent. fold e.
  replace (Z.max e (-1022)) with e by lia.
  assert (Eu : 2 ^ (e - 52) * 2 ^ (52 - e) == 1).
  { rewrite <- pow2_add. replace (e - 52 + (52 - e))%Z with 0%Z by lia. reflexivity. }
  pose proof (pow2_pos (e - 52)) as Pu.
  assert (Ediv : inject_Z z / 2 ^ (e - 52) == inject_Z (z * 2 ^ (52 - e))).
  { rewrite inject_Z_mult, pow2_inject by lia.
    apply Qmult_inj_r with (2 ^ (e - 52)); [lra |].
    unfold Qdiv. rewrite <- Qmult_assoc, (Qmult_comm (/ _)), Qmult_inv_r by lra.
    rewrite <- Qmult_assoc, (Qmult_comm (2 ^ (52 - e))), Eu. ring. }
  rewrite (rne_comp _ _ Ediv), rne_inject.
  rewrite inject_Z_mult, pow2_inject by lia.
  rewrite <- Qmult_assoc, (Qmult_comm (2 ^ (52 - e))), Eu. ring.
Qed.

Lemma round64_integer (q : Q) (z : Z) :
  (0 < z <= 1000000)%Z -> q == inject_Z z ->
  exists v, round64 q = Fin v /\ v == inject_Z z.
Proof.
  intros Hz E.
  assert (Hz' : 0 < inject_Z z <= 1000000).
  { split.
    - change 0 with (inject_Z 0). rewrite <- Zlt_Qlt. lia.
    - change 1000000 with (inject_Z 1000000). rewrite <- Zle_Qle. lia. }
  destruct (round64_small q) as [Er _]; [lra | lra |].
  exists (rnd64 q). split; [exact Er |].
  rewrite (rnd64_comp q (inject_Z z)) by lra.
  apply rnd64_integer. lia.
Qed.

End Binary64Integers.

Section DecimalText.

Import Str.
Local Open Scope N_scope.

Lemma digit_cases (d : Z) :
  (0 <= d <= 9)%Z ->
  d = 0%Z \/ d = 1%Z \/ d = 2%Z \/ d = 3%Z \/ d = 4%Z
  \/ d = 5%Z \/ d = 6%Z \/ d = 7%Z \/ d = 8%Z \/ d = 9%Z.
Proof. lia. Qed.

Lemma digit_in_digit_byte (d : Z) :
  (0 <= d <= 9)%Z -> digit_in 10 (digit_byte d) = Some d.
Proof.
  intros H.
  destruct (digit_cases d H) as
    [-> | [-> | [-> | [-> | [-> | [-> | [-> | [-> | [-> | ->]]]]]]]]];
    reflexivity.
Qed.

Lemma digit_byte_small (d : Z) : (0 <= d <= 9)%Z -> digit_byte d < 256.
Proof. unfold digit_byte. lia. Qed.

Lemma bytes_of_bytes (l : list N) :
  Forall (fun b => b < 256) l -> bytes (of_bytes l) = l.
Proof.
  induction 1 as [| b t Hb _ IH]; simpl; [reflexivity |].
  rewrite IH, N_ascii_embedding by exact Hb. reflexivity.
Qed.

Lemma digits_all (ds : list Z) :
  Forall (fun d => (0 <= d <= 9)%Z) ds ->
  digits (map digit_byte ds) = (ds, []).
Proof.
  induction 1 as [| d t Hd _ IH]; simpl; [reflexivity |].
  rewrite (digit_in_digit_byte d Hd), IH. reflexivity.
Qed.

Lemma strip_any_digit (d : Z) (l : list N) :
  (0 <= d <= 9)%Z ->
  strip_any white_space (digit_byte d :: l) = None
  /\ strip_any (map (@rev N) white_space) (digit_byte d :: l) = None.
Proof.
  intros H.
  destruct (digit_cases d H) as
    [-> | [-> | [-> | [-> | [-> | [-> | [-> | [-> | [-> | ->]]]]]]]]];
    split; reflexivity.
Qed.

Lemma trim_digits (a b : Z) (mid : list N) :
  (0 <= a <= 9)%Z -> (0 <= b <= 9)%Z ->
  trim (digit_byte a :: mid ++ [digit_byte b]) = digit_byte a :: mid ++ [digit_byte b].
Proof.
  intros Ha Hb. unfold trim, trim_start. cbn [length strip_all].
  rewrite (proj1 (strip_any_digit a _ Ha)).
  unfold trim_end.
  change (digit_byte a :: mid ++ [digit_byte b])
    with ((digit_byte a :: mid) ++ [digit_byte b]).
  rewrite rev_app_distr. cbn [rev app length].
  rewrite length_app. cbn [length]. rewrite Nat.add_comm. cbn [Nat.add strip_all].
  rewrite (proj2 (strip_any_digit b _ Hb)).
  cbn [rev]. rewrite rev_app_distr, rev_involutive. reflexivity.
Qed.

End DecimalText.

Section CodeText.

Import Str.

Lemma to_number_six_digits (d5 d4 d3 d2 d1 d0 : Z) :
  1 <= d5 <= 9 -> 0 <= d4 <= 9 -> 0 <= d3 <= 9 ->
  0 <= d2 <= 9 -> 0 <= d1 <= 9 -> 0 <= d0 <= 9 ->
  exists v,
    to_number (of_bytes (map digit_byte [d5; d4; d3; d2; d1; d0])) = Number.Fin v
    /\ (v == inject_Z (100000 * d5 + 10000 * d4 + 1000 * d3
                       + 100 * d2 + 10 * d1 + d0))%Q.
Proof.
  intros H5 H4 H3 H2 H1 H0.
  assert (Hall : Forall (fun d => 0 <= d <= 9) [d5; d4; d3; d2; d1; d0])
    by (repeat constructor; lia).
  unfold to_number.
  rewrite bytes_of_bytes
    by (cbn [map]; repeat constructor; apply digit_byte_small; lia).
  change (map digit_byte [d5; d4; d3; d2; d1; d0])
    with (digit_byte d5 :: map digit_byte [d4; d3; d2; d1] ++ [digit_byte d0]).
  rewrite trim_digits by lia.
  change (digit_byte d5 :: map digit_byte [d4; d3; d2; d1] ++ [digit_byte d0])
    with (map digit_byte [d5; d4; d3; d2; d1; d0]).
  assert (Hhead : non_decimal (map digit_byte [d5; d4; d3; d2; d1; d0]) = None
                  /\ sign (map digit_byte [d5; d4; d3; d2; d1; d0])
                     = (false, map digit_byte [d5; d4; d3; d2; d1; d0])
                  /\ list_eqb (map digit_byte [d5; d4; d3; d2; d1; d0]) Infinity
                     = false).
  { assert (H5' : 0 <= d5 <= 9) by lia.
    destruct (digit_cases d5 H5') as
      [-> | [-> | [-> | [-> | [-> | [-> | [-> | [-> | [-> | ->]]]]]]]]];
      [lia | ..]; repeat split; reflexivity. }
  destruct Hhead as (Hnd & Hsign & Hinf).
  cbn [map] in *. rewrite Hnd, Hsign, Hinf.
  unfold unsigned_decimal.
  change (digit_byte d5 :: digit_byte d4 :: digit_byte d3 :: digit_byte d2
            :: digit_byte d1 :: [digit_byte d0])
    with (map digit_byte [d5; d4; d3; d2; d1; d0]).
  rewrite (digits_all _ Hall). cbn [app exponent_part length].
  apply round64_integer; [lia |].
  change (10 ^ (0 - Z.of_nat 0))%Q with 1%Q. rewrite Qmult_1_r.
  unfold value_in. cbn [fold_left].
  apply inject_Z_injective. lia.
Qed.

(** The text of a six-digit code reads back as the code: the two are
    loosely equal. *)
Lemma code_text_loose_equal (c : Z) :
  100000 <= c <= 999999 ->
  loose_equal (Num (Number.of_Z c)) (Text (decimal6 c)) = true.
Proof.
  intros Hc. unfold decimal6.
  destruct (to_number_six_digits (c / 100000 mod 10) (c / 10000 mod 10)
              (c / 1000 mod 10) (c / 100 mod 10) (c / 10 mod 10) (c mod 10))
    as (v & Ev & Hv); try (Z.to_euclidean_division_equations; lia).
  change (loose_equal (Num (Number.of_Z c)) (Text ?s))
    with (Number.equal (Number.of_Z c) (to_number s)).
  rewrite Ev. unfold Number.equal, Number.of_Z. apply Qeq_bool_iff.
  rewrite Hv. apply inject_Z_injective.
  Z.to_euclidean_division_equations. lia.
Qed.

End CodeText.

(** X9. Loose equality lets a code through as text: on a store holding the
    six-digit code [c] for a key, [verify] accepts the string of the six
    decimal digits of [c] and removes the entry. *)
Theorem X9_code_as_text_verifies (o : gmap string Number.number) (p : string)
    (c : Z) :
  100000 <= c <= 999999 ->
  Registry.verify (<[p := Number.of_Z c]> o) p (Text (Str.decimal6 c))
  = (true, base.delete p o).
Proof.
  intros Hc.
  rewrite (verify_own _ p _ _ (lookup_insert_eq o p _)).
  rewrite (code_text_loose_equal c Hc).
  assert (Hs : Registry.six_digit (Number.of_Z c)) by (exists c; auto).
  rewrite (six_digit_truthy _ Hs). simpl. rewrite delete_insert_eq. reflexivity.
Qed.

Lemma X9_code_as_text_verifies_witness :
  100000 <= 123456 <= 999999
  /\ Registry.verify (<[ "+15550001"%string := Number.of_Z 123456 ]> ∅)
       "+15550001" (Text "123456")
     = (true, base.delete "+15550001"%string ∅).
Proof.
  assert (H : 100000 <= 123456 <= 999999) by lia.
  split; [exact H |].
  exact (X9_code_as_text_verifies ∅ "+15550001" 123456 H).
Defined.

(** ** What the routes never do *)

Lemma prefix_app (p s : string) :
  String.prefix p s = true -> exists rest, s = (p ++ rest)%string.
Proof.
  revert s. induction p as [| c p IH]; intros s H.
  - exists s. reflexivity.
  - destruct s as [| c' s]; [discriminate |]. simpl in H.
    destruct (Ascii.ascii_dec c c') as [<- | Hne]; [| discriminate].
    destruct (IH s H) as [rest ->]. exists rest. reflexivity.
Qed.

Lemma authenticate_next (sv : services) (authorization : option string)
    (user : string) :
  authenticateToken sv authorization = Next user ->
  exists rest,
    authorization = Some ("Bearer " ++ rest)%string
    /\ jwt_verify sv (before_space rest) = Some user.
Proof.
  unfold authenticateToken.
  destruct authorization as [h |]; [| discriminate]. cbn [text].
  destruct (missing (Some h)); [discriminate |].
  destruct (Str.startsWith h "Bearer ") eqn:Hp; [| discriminate].
  apply prefix_app in Hp. destruct Hp as [rest ->]. cbn [orb negb].
  rewrite bearer_token.
  destruct (jwt_verify sv (before_space rest)) as [u |] eqn:Hv; [| discriminate].
  intros [= ->]. exists rest. split; [reflexivity | exact Hv].
Qed.

(** X10. The store is called only behind a verified bearer token: if
    /add-student makes any call on the store, the Authorization header was
    [Bearer ] followed by a token that the token library accepted. *)
Theorem X10_store_only_behind_token (sv : services)
    (authorization : option string) (b : registration) :
  snd (add_student sv authorization b) <> [] ->
  exists rest user,
    authorization = Some ("Bearer " ++ rest)%string
    /\ jwt_verify sv (before_space rest) = Some user.
Proof.
  unfold add_student.
  destruct (authenticateToken sv authorization) as [r | user] eqn:E.
  - intros H. exfalso. apply H. reflexivity.
  - intros _. destruct (authenticate_next sv authorization user E) as [rest H].
    exists rest, user. exact H.
Qed.

Lemma X10_store_only_behind_token_witness :
  snd (add_student Sample.services_insert_fails (Some "Bearer good"%string)
         Sample.student_a) <> []
  /\ exists rest user,
       Some "Bearer good"%string = Some ("Bearer " ++ rest)%string
       /\ jwt_verify Sample.services_insert_fails (before_space rest) = Some user.
Proof.
  assert (H : snd (add_student Sample.services_insert_fails
                     (Some "Bearer good"%string) Sample.student_a) <> [])
    by discriminate.
  split; [exact H |].
  exact (X10_store_only_behind_token _ _ _ H).
Defined.

(** X11. An insert is made at most once, only with the fields of the
    body, and only after validation passed and the existence check resolved
    with no row and no error other than PGRST116; the check is the call just
    before it. *)
Theorem X11_insert_only_after_check (sv : services)
    (authorization : option string) (b : registration) (row : student) :
  In (DbInsert row) (snd (add_student sv authorization b)) ->
  row = new_row b
  /\ required_missing b = false
  /\ snd (add_student sv authorization b)
     = [DbSelectSingle (existence_filter b); DbInsert (new_row b)]
  /\ exists checkError,
       db_select_single sv (existence_filter b) = Resolved None checkError
       /\ other_than_no_row checkError = false.
Proof.
  unfold add_student.
  destruct (authenticateToken sv authorization) as [r | user];
    [intros [] |].
  unfold add_student_handler.
  destruct (required_missing b); [intros [] |].
  destruct (db_select_single sv (existence_filter b))
    as [| existing checkError] eqn:Es.
  { intros [[=] | []]. }
  destruct existing as [ex |]; [intros [[=] | []] |].
  change (bool_decide (is_Some (@None student))) with false. cbn iota.
  destruct (other_than_no_row checkError) eqn:Eo; [intros [[=] | []] |].
  destruct (db_insert sv (new_row b)) as [| data [error |]];
    (intros [[=] | [[= ->] | []]]; repeat split;
     exists checkError; split; [reflexivity | exact Eo]).
Qed.

Lemma X11_insert_only_after_check_witness :
  In (DbInsert (new_row Sample.student_a))
    (snd (add_student Sample.services_insert_fails (Some "Bearer good"%string)
            Sample.student_a))
  /\ required_missing Sample.student_a = false.
Proof.
  assert (H : In (DbInsert (new_row Sample.student_a))
                (snd (add_student Sample.services_insert_fails
                        (Some "Bearer good"%string) Sample.student_a)))
    by (right; left; reflexivity).
  split; [exact H |].
  exact (proj1 (proj2 (X11_insert_only_after_check _ _ _ _ H))).
Defined.

(** ** Every six-digit code can be generated *)

Section Surjective.

Import Number.
Local Open Scope Q_scope.

(** A 53-bit integer scaled by a power of two in the normal range is a
    binary64 value. *)
Lemma rnd64_dyadic (j s : Z) :
  (0 < j < 2 ^ 53)%Z -> (-1022 <= s)%Z ->
  rnd64 (inject_Z j * 2 ^ s) == inject_Z j * 2 ^ s.
Proof.
  intros [Hj0 Hj1] Hs.
  pose proof (pow2_pos s) as Ps.
  assert (Hj : 1 <= inject_Z j < 2 ^ 53).
  { split.
    - change 1 with (inject_Z 1). rewrite <- Zle_Qle. lia.
    - rewrite <- pow2_inject by lia. rewrite <- Zlt_Qlt. exact Hj1. }
  assert (Hx : 0 < inject_Z j * 2 ^ s) by (apply Qmult_lt_0_compat; lra).
  destruct (ilog2_spec _ Hx) as [Lo Hi].
  set (x := inject_Z j * 2 ^ s) in *. set (e := ilog2 x) in *.
  assert (Es : forall a, 2 ^ a == 2 ^ (a - s) * 2 ^ s).
  { intros a. rewrite <- pow2_add. f_equiv; lia. }
  assert (Lo' : 2 ^ (e - s) <= inject_Z j).
  { rewrite (Es e) in Lo. unfold x in Lo. apply Qmult_le_r in Lo; assumption. }
  assert (Hi' : inject_Z j < 2 ^ (e + 1 - s)).
  { rewrite (Es (e + 1)%Z) in Hi. unfold x in Hi. apply Qmult_lt_r in Hi; assumption. }
  assert (He : (0 <= e - s <= 52)%Z).
  { split.
    - assert (0 < e + 1 - s)%Z by (apply pow2_lt_inv; change (2 ^ 0) with 1; lra). lia.
    - assert (e - s < 53)%Z by (apply pow2_lt_inv; lra). lia. }
  rewrite rnd64_nonneg by lra. unfold ulp, exponent. fold e.
  replace (Z.max e (-1022)) with e by lia.
  pose proof (pow2_pos (e - 52)) as Pu.
  assert (Eu : 2 ^ s == 2 ^ (52 - (e - s)) * 2 ^ (e - 52)).
  { rewrite <- pow2_add. f_equiv; lia. }
  assert (Ediv : x / 2 ^ (e - 52) == inject_Z (j * 2 ^ (52 - (e - s)))).
  { rewrite inject_Z_mult, pow2_inject by lia.
    apply Qmult_inj_r with (2 ^ (e - 52)); [lra |].
    unfold Qdiv. rewrite <- Qmult_assoc, (Qmult_comm (/ _)), Qmult_inv_r by lra.
    unfold x. rewrite Eu. ring. }
  rewrite (rne_comp _ _ Ediv), rne_inject.
  rewrite inject_Z_mult, pow2_inject by lia.
  unfold x. rewrite Eu. ring.
Qed.

Lemma quarter_representable (z : Z) (a : Q) :
  (0 < z < 2 ^ 50)%Z -> (a == 1 # 4 \/ a == 1 # 2) ->
  rnd64 (inject_Z z + a) == inject_Z z + a.
Proof.
  intros Hz Ha.
  assert (E : exists j, (0 < j < 2 ^ 53)%Z /\ inject_Z z + a == inject_Z j * 2 ^ (-2)).
  { change (2 ^ (-2)) with (1 # 4).
    destruct Ha as [Ha | Ha].
    - exists (4 * z + 1)%Z. split; [lia |]. rewrite Ha, inject_Z_plus, inject_Z_mult.
      change (inject_Z 4) with 4. change (inject_Z 1) with 1. field.
    - exists (4 * z + 2)%Z. split; [lia |]. rewrite Ha, inject_Z_plus, inject_Z_mult.
      change (inject_Z 4) with 4. change (inject_Z 2) with 2. field. }
  destruct E as (j & Hj & Ej).
  assert (Hpos : 0 < inject_Z z + a).
  { assert (0 < inject_Z z) by (change 0 with (inject_Z 0); rewrite <- Zlt_Qlt; lia).
    destruct Ha as [-> | ->]; lra. }
  rewrite (rnd64_comp _ _ Hpos Ej), Ej.
  apply rnd64_dyadic; lia.
Qed.

Lemma generate_onto (c : Z) :
  (100000 <= c <= 999999)%Z ->
  exists r, Registry.random_draw r /\ Registry.generate r = of_Z c.
Proof.
  intros Hc.
  set (k := (c - 100000)%Z).
  set (x := (inject_Z k + (1 # 2)) / 900000).
  set (j := Qfloor (x * 2 ^ 53)).
  assert (P53 : 2 ^ 53 == 9007199254740992) by reflexivity.
  assert (M53 : 2 ^ (-53) == 1 # 9007199254740992) by reflexivity.
  assert (Hk : 0 <= inject_Z k <= 899999).
  { split.
    - change 0 with (inject_Z 0). rewrite <- Zle_Qle. lia.
    - change 899999 with (inject_Z 899999). rewrite <- Zle_Qle. lia. }
  assert (Ex : x * 900000 == inject_Z k + (1 # 2)) by (unfold x; field).
  assert (Hx : 1 # 2000000 <= x /\ x < 1) by (split; lra).
  pose proof (Qfloor_le (x * 2 ^ 53)) as Fl.
  pose proof (Qlt_floor (x * 2 ^ 53)) as Fu. fold j in Fl, Fu.
  rewrite inject_Z_plus in Fu. change (inject_Z 1) with 1 in Fu.
  assert (Hj : (0 < j < 2 ^ 53)%Z).
  { split.
    - assert (H1 : inject_Z 0 < inject_Z j + 1) by (change (inject_Z 0) with 0; lra).
      assert (inject_Z 1 < inject_Z j + 1) by (change (inject_Z 1) with 1; lra).
      rewrite Zlt_Qlt. change (inject_Z 0) with 0. lra.
    - rewrite Zlt_Qlt. rewrite pow2_inject by lia. lra. }
  set (r := inject_Z j * 2 ^ (-53)).
  assert (Hr : x - 2 ^ (-53) < r /\ r <= x) by (unfold r; split; lra).
  assert (Hdraw : Registry.random_draw r).
  { repeat split.
    - apply rnd64_dyadic; lia.
    - lra.
    - lra. }
  exists r. split; [exact Hdraw |].
  assert (Hz : forall z a, (99999 < z < 1000000)%Z \/ (0 < z < 900000)%Z ->
                 (a == 1 # 4 \/ a == 1 # 2) ->
                 rnd64 (inject_Z z + a) == inject_Z z + a)
    by (intros z a Hza Ha; apply quarter_representable; [lia | exact Ha]).
  (* the product *)
  assert (B1 : inject_Z k + (1 # 4) <= r * 900000 <= inject_Z k + (1 # 2)) by lra.
  destruct (round64_small (r * 900000)) as [E1 _]; [lra | lra |].
  assert (Y1 : inject_Z k + (1 # 4) <= rnd64 (r * 900000) <= inject_Z k + (1 # 2)).
  { destruct (Z.eq_dec k 0%Z) as [K0 | K0].
    - rewrite K0 in *. change (inject_Z 0) with 0 in *. split.
      + apply Qle_trans with (rnd64 (0 + (1 # 4))); [vm_compute; discriminate |].
        apply rnd64_mono; lra.
      + apply Qle_trans with (rnd64 (0 + (1 # 2))); [apply rnd64_mono; lra |].
        vm_compute. discriminate.
    - pose proof (Hz k (1 # 4) ltac:(lia) ltac:(left; reflexivity)) as R1.
      pose proof (Hz k (1 # 2) ltac:(lia) ltac:(right; reflexivity)) as R2.
      assert (M1 : rnd64 (inject_Z k + (1 # 4)) <= rnd64 (r * 900000))
        by (apply rnd64_mono; lra).
      assert (M2 : rnd64 (r * 900000) <= rnd64 (inject_Z k + (1 # 2)))
        by (apply rnd64_mono; lra).
      lra. }
  set (y := rnd64 (r * 900000)) in *.
  destruct (round64_small (100000 + y)) as [E2 _]; [lra | lra |].
  assert (Ec : inject_Z c == 100000 + inject_Z k).
  { unfold k. rewrite <- (inject_Z_plus 100000). apply inject_Z_injective. lia. }
  assert (Y2 : inject_Z c + (1 # 4) <= rnd64 (100000 + y) <= inject_Z c + (1 # 2)).
  { pose proof (Hz c (1 # 4) ltac:(lia) ltac:(left; reflexivity)) as R1.
    pose proof (Hz c (1 # 2) ltac:(lia) ltac:(right; reflexivity)) as R2.
    assert (M1 : rnd64 (inject_Z c + (1 # 4)) <= rnd64 (100000 + y))
      by (apply rnd64_mono; lra).
    assert (M2 : rnd64 (100000 + y) <= rnd64 (inject_Z c + (1 # 2)))
      by (apply rnd64_mono; lra).
    lra. }
  unfold Registry.generate, of_Z, mul, add, floor.
  change (inject_Z 900000) with 900000. rewrite E1.
  change (inject_Z 100000) with 100000. fold y. rewrite E2.
  f_equal. f_equal.
  pose proof (Qfloor_le (rnd64 (100000 + y))) as G1.
  pose proof (Qlt_floor (rnd64 (100000 + y))) as G2.
  rewrite inject_Z_plus in G2. change (inject_Z 1) with 1 in G2.
  assert (inject_Z c - 1 < inject_Z (Qfloor (rnd64 (100000 + y))) < inject_Z c + 1)
    by (split; lra).
  assert (H1 : inject_Z (c + -1) < inject_Z (Qfloor (rnd64 (100000 + y))))
    by (rewrite inject_Z_plus; change (inject_Z (-1)) with (-1); lra).
  assert (H2 : inject_Z (Qfloor (rnd64 (100000 + y))) < inject_Z (c + 1))
    by (rewrite inject_Z_plus; change (inject_Z 1) with 1; lra).
  rewrite <- Zlt_Qlt in H1, H2. lia.
Qed.

End Surjective.

(** X14. Every integer of six digits is a code the generator yields: for
    each [c] in [100000, 999999] there is a binary64 draw in [0, 1) on which
    the generated code is [c]. *)
Theorem X14_every_code_reachable (c : Z) :
  100000 <= c <= 999999 ->
  exists r, Registry.random_draw r /\ Registry.generate r = Number.of_Z c.
Proof. exact (generate_onto c). Qed.

Lemma X14_every_code_reachable_witness :
  100000 <= 999999 <= 999999
  /\ exists r, Registry.random_draw r /\ Registry.generate r = Number.of_Z 999999.
Proof.
  assert (H : 100000 <= 999999 <= 999999) by lia.
  split; [exact H |]. exact (X14_every_code_reachable 999999 H).
Defined.

(** ** Start-up *)

Lemma or_else_set (env : gmap string string) (name fallback : string) :
  Startup.unset env name = false ->
  env !! name = Some (Startup.or_else env name fallback)
  /\ Startup.or_else env name fallback <> ""%string.
Proof.
  unfold Startup.unset, Startup.or_else.
  destruct (env !! name) as [v |]; [| discriminate].
  intros H. rewrite H. split; [reflexivity |]. apply String.eqb_neq, H.
Qed.

(** X15. The server listens only when each of the six required variables
    is set and not empty, and it then runs with the values of the
    environment: the fallback secret [supersecretkey] of line 38 is never
    what [JWT_SECRET] gets from the fallback.  Otherwise the process exits
    with code 1. *)
Theorem X15_startup_fail_fast (env : gmap string string) :
  (Forall (fun name => exists v, env !! name = Some v /\ v <> ""%string)
     Startup.required ->
   exists c,
     Startup.start env = Startup.Listening c
     /\ env !! "JWT_SECRET"%string = Some (Startup.JWT_SECRET c)
     /\ env !! "TWILIO_PHONE_NUMBER"%string = Some (Startup.TWILIO_FROM c))
  /\ (Exists (fun name => env !! name = None \/ env !! name = Some ""%string)
       Startup.required ->
     exists logged, Startup.start env = Startup.Exit 1 logged).
Proof.
  assert (Hset : forall name,
            (exists v, env !! name = Some v /\ v <> ""%string) ->
            Startup.unset env name = false).
  { intros name (v & E & Hv). unfold Startup.unset. rewrite E.
    apply String.eqb_neq, Hv. }
  assert (Hunset : forall name,
            env !! name = None \/ env !! name = Some ""%string ->
            Startup.unset env name = true).
  { intros name [E | E]; unfold Startup.unset; rewrite E; reflexivity. }
  split.
  - intros H. unfold Startup.required in H.
    inversion_clear H as [| ? ? H1 H']. inversion_clear H' as [| ? ? H2 H].
    inversion_clear H as [| ? ? H3 H']. inversion_clear H' as [| ? ? H4 H].
    inversion_clear H as [| ? ? H5 H']. inversion_clear H' as [| ? ? H6 _].
    unfold Startup.start.
    rewrite (Hset _ H1), (Hset _ H2), (Hset _ H3), (Hset _ H4), (Hset _ H5),
      (Hset _ H6). cbn [orb].
    eexists. split; [reflexivity |]. cbn [Startup.JWT_SECRET Startup.TWILIO_FROM].
    split; apply or_else_set, Hset; assumption.
  - intros H. unfold Startup.required in H.
    assert (Hany : existsb (Startup.unset env) Startup.required = true).
    { apply existsb_exists. apply Exists_exists in H.
      destruct H as (name & Hin & Hn). exists name.
      split; [apply list_elem_of_In, Hin | apply Hunset, Hn]. }
    unfold Startup.start. cbn [existsb Startup.required] in Hany.
    destruct (Startup.unset env "SUPABASE_URL"),
      (Startup.unset env "SUPABASE_KEY"), (Startup.unset env "TWILIO_SID"),
      (Startup.unset env "TWILIO_AUTH_TOKEN"),
      (Startup.unset env "TWILIO_PHONE_NUMBER"),
      (Startup.unset env "JWT_SECRET");
      try discriminate Hany; eexists; reflexivity.
Qed.

Lemma X15_startup_fail_fast_witness :
  Exists (fun name =>
            ({[ "JWT_SECRET"%string := "s3cret"%string ]} : gmap string string)
              !! name = None
            \/ ({[ "JWT_SECRET"%string := "s3cret"%string ]} : gmap string string)
                 !! name = Some ""%string)
    Startup.required
  /\ exists logged,
       Startup.start {[ "JWT_SECRET"%string := "s3cret"%string ]}
       = Startup.Exit 1 logged.
Proof.
  assert (H : Exists (fun name =>
            ({[ "JWT_SECRET"%string := "s3cret"%string ]} : gmap string string)
              !! name = None
            \/ ({[ "JWT_SECRET"%string := "s3cret"%string ]} : gmap string string)
                 !! name = Some ""%string)
            Startup.required).
  { left. left. reflexivity. }
  split; [exact H |].
  exact (proj2 (X15_startup_fail_fast _) H).
Defined.

(** ** The OTP routes on any JSON body: what they do *)

Section AnyBody.

Implicit Types (o : gmap string Number.number) (sv : otp_services)
  (phone otp : option jvalue) (p j : jvalue).

(** What /send-otp does to the store. *)
Lemma step_send o sv phone :
  step o (sv, SendOtp phone) =
    match phone with
    | Some p =>
        if json_truthy p then
          match json_to_string p with
          | Some key => Obj.set o key (Registry.generate (draw sv))
          | None => o
          end
        else o
    | None => o
    end.
Proof.
  unfold step, send_otp_any. cbn [fst snd].
  destruct phone as [p |]; [| reflexivity].
  destruct (json_truthy p); [| reflexivity]. cbn [negb].
  destruct (json_to_string p) as [key |]; [| reflexivity].
  destruct (create sv _ _ _); reflexivity.
Qed.

(** What /verify-otp does to the store: nothing, or the removal of the
    key of its phone. *)
Lemma step_verify o sv phone otp :
  step o (sv, VerifyOtp phone otp) = o
  \/ exists p key,
       phone = Some p /\ json_to_string p = Some key
       /\ step o (sv, VerifyOtp phone otp) = base.delete key o.
Proof.
  unfold step, verify_otp_any. cbn [fst snd].
  destruct phone as [p |]; [| left; reflexivity].
  destruct (negb (json_truthy p) || json_missing otp); [left; reflexivity |].
  destruct (json_to_string p) as [key |] eqn:Ek; [| left; reflexivity].
  destruct (truthy (Obj.get o key)); [| left; reflexivity].
  destruct (loose_equal_json (Obj.get o key) otp) as [[] |];
    [| left; reflexivity | left; reflexivity].
  right. exists p, key. auto.
Qed.


Lemma step_well_formed o call :
  Registry.random_draw (draw (fst call)) ->
  Registry.well_formed o -> Registry.well_formed (step o call).
Proof.
  destruct call as [sv [phone | phone otp]]; intros Hr Ho.
  - rewrite step_send. destruct phone as [p |]; [| exact Ho].
    destruct (json_truthy p); [| exact Ho].
    destruct (json_to_string p) as [key |]; [| exact Ho].
    exact (issue_well_formed o key (draw sv) Hr Ho).
  - destruct (step_verify o sv phone otp) as [-> | (p & key & _ & _ & ->)];
      [exact Ho |].
    intros k n H. apply lookup_delete_Some in H. apply (Ho k n), H.
Qed.

Lemma step_keeps_no_proto o call :
  o !! "__proto__"%string = None -> step o call !! "__proto__"%string = None.
Proof.
  destruct call as [sv [phone | phone otp]]; intros Ho.
  - rewrite step_send. destruct phone as [p |]; [| exact Ho].
    destruct (json_truthy p); [| exact Ho].
    destruct (json_to_string p) as [key |]; [| exact Ho].
    apply set_keeps_no_proto, Ho.
  - destruct (step_verify o sv phone otp) as [-> | (p & key & _ & _ & ->)];
      [exact Ho |].
    apply lookup_delete_None. auto.
Qed.

Lemma reach_invariant o calls :
  Forall (fun call => Registry.random_draw (draw (fst call))) calls ->
  Registry.well_formed o -> o !! "__proto__"%string = None ->
  Registry.well_formed (reach o calls)
  /\ reach o calls !! "__proto__"%string = None.
Proof.
  intros Hd. revert o. induction Hd as [| call calls Hc _ IH]; intros o Ho Hp.
  - split; assumption.
  - apply IH; [apply step_well_formed | apply step_keeps_no_proto]; assumption.
Qed.

(** On a string phone and a primitive [otp] the routes are [send_otp] and
    [verify_otp], for collaborators that answer alike. *)
Lemma send_otp_any_string (a : otp_services) (sv : services) o (s : string) :
  draw a = Math_random sv -> sender a = TWILIO_PHONE_NUMBER sv ->
  (forall code from, create a code from (JString s) = messages_create sv code from s) ->
  fst (send_otp_any a o (Some (JString s))) = fst (send_otp sv o (Some s)).
Proof.
  intros Hd Hs Hc. unfold send_otp_any, send_otp.
  cbn [json_truthy json_to_string missing text Registry.issue].
  destruct (String.eqb s ""); [reflexivity |]. cbn [negb].
  rewrite Hc, Hd, Hs. destruct (messages_create sv _ _ s); reflexivity.
Qed.

Lemma verify_otp_any_string (a : otp_services) (sv : services) o (s : string)
    otp :
  sign a (JString s) = jwt_sign sv s -> json_primitive otp = true ->
  verify_otp_any a o (Some (JString s)) otp
  = Answered (verify_otp sv o (Some s) (Some (json_value otp))).
Proof.
  intros Hs Hp. unfold verify_otp_any, verify_otp, Registry.verify.
  cbn [json_truthy json_to_string missing text field_value].
  assert (Ht : json_missing otp = negb (truthy (json_value otp))).
  { destruct otp as [[| b | n | t | l | l] |]; try reflexivity; discriminate. }
  assert (El : loose_equal_json (Obj.get o s) otp
               = Some (loose_equal (Obj.get o s) (json_value otp))).
  { destruct otp as [[| b | n | t | l | l] |]; try reflexivity; discriminate. }
  rewrite Ht, El, Hs.
  destruct (String.eqb s ""); [reflexivity |]. cbn [negb orb].
  destruct (truthy (json_value otp)); [| reflexivity]. cbn [negb].
  destruct (truthy (Obj.get o s)); [| reflexivity]. cbn [andb].
  destruct (loose_equal (Obj.get o s) (json_value otp)); reflexivity.
Qed.

End AnyBody.




(** The empty key is reachable: an empty array is truthy and converts to
    the empty string, so /send-otp with [phone: []] stores its code there. *)
Example empty_key_reachable (sv : otp_services) :
  reach ∅ [(sv, SendOtp (Some (JArray [])))] !! ""%string
  = Some (Registry.generate (draw sv)).
Proof.
  cbn [reach fold_left]. rewrite step_send. cbn [json_truthy json_to_string].
  apply set_lookup_same. discriminate.
Qed.



(** X17. The invariant of the registry under any JSON bodies: in every
    state the server reaches from the empty store, under draws that
    [Math.random()] can return, every stored value is an integer of six
    digits and no entry is held for [__proto__]; and in each such state
    /verify-otp still answers 200 with a token to the phone [__proto__]
    and the text [[object Object]], with no code pending for it. *)
Theorem X17_invariant_any_body (calls : list (otp_services * otp_request))
    (sv : otp_services) :
  Forall (fun call => Registry.random_draw (draw (fst call))) calls ->
  Registry.well_formed (reach ∅ calls)
  /\ reach ∅ calls !! "__proto__"%string = None
  /\ verify_otp_any sv (reach ∅ calls) (Some (JString "__proto__"))
       (Some (JString "[object Object]"))
     = Answered
         (json (SuccessToken "OTP verified successfully"
                  (sign sv (JString "__proto__"))),
          reach ∅ calls).
Proof.
  intros Hd.
  destruct (reach_invariant ∅ calls Hd empty_well_formed (lookup_empty _))
    as [Hw Hp].
  split; [exact Hw |]. split; [exact Hp |].
  unfold verify_otp_any. cbn [json_truthy json_missing json_to_string
    String.eqb Ascii.eqb Bool.eqb negb orb].
  rewrite (get_proto _ Hp). cbn [truthy].
  change (loose_equal_json ObjectPrototype (Some (JString "[object Object]")))
    with (Some true).
  unfold Obj.delete. rewrite (delete_id _ _ Hp). reflexivity.
Qed.

Lemma X17_invariant_any_body_witness :
  Forall (fun call => Registry.random_draw (draw (fst call)))
    [(Sample.otp_services_ok,
      SendOtp (Some (JArray [])))]
  /\ Registry.well_formed
       (reach ∅
          [(Sample.otp_services_ok,
            SendOtp (Some (JArray [])))]).
Proof.
  assert (H : Forall (fun call => Registry.random_draw (draw (fst call)))
                [(Sample.otp_services_ok,
                  SendOtp (Some (JArray [])))]).
  { constructor; [exact sample_draw | constructor]. }
  split; [exact H |].
  exact (proj1 (X17_invariant_any_body _
                  Sample.otp_services_ok H)).
Defined.
